(** * Multi-client chat server: registry, command interpreter, shutdown

    A shallow embedding of [server.c].  The server keeps a fixed table
    of [MAX_CLIENTS] client records behind one mutex, runs one thread per
    accepted connection, and interprets every chunk returned by [recv] as
    one command line.

    The embedding is sequential: every critical section of the source is
    one step of the model, so the mutex itself does not appear.  Calls
    that reach the outside world ([send], [close], the log file) are
    recorded, in order, in a trace of events. *)

From Stdlib Require Import ZArith String Ascii List Lia Bool Sorted.
From stdpp Require Import base list.
Import ListNotations.

Local Open Scope Z_scope.

(** ** Constants of the source *)

Definition PORT : Z := 9090.
Definition MAX_CLIENTS : nat := 128.
Definition BUF_SIZE : nat := 4096.
Definition NAME_LEN : nat := 32.

Definition INT64_MAX : Z := 9223372036854775807.
Definition INT64_MIN : Z := -9223372036854775808.

(** Two's complement wrap-around of a 64-bit signed integer.  ([next_id++]
    on an [int64_t]; the C standard leaves the overflow undefined, the
    usual targets wrap.) *)
Definition wrap64 (z : Z) : Z :=
  (z + 9223372036854775808) mod 18446744073709551616 - 9223372036854775808.

(** ** Characters and C strings *)

Definition NUL : ascii := "000"%char.
Definition LF : ascii := "010"%char.
Definition CR : ascii := "013"%char.
Definition SP : ascii := " "%char.

(** String literals of the source, as byte lists (without the final NUL). *)
Definition lit (s : string) : list ascii := list_ascii_of_string s.

(** The C string stored in a buffer: the bytes before the first NUL. *)
Fixpoint cstr (l : list ascii) : list ascii :=
  match l with
  | [] => []
  | c :: l' => if Ascii.eqb c NUL then [] else c :: cstr l'
  end.

(** [strncmp(a, b, n) == 0] on two C strings. *)
Fixpoint strncmp_eq (a b : list ascii) (n : nat) {struct n} : bool :=
  match n with
  | O => true
  | S n' =>
      match a, b with
      | [], [] => true
      | x :: a', y :: b' => Ascii.eqb x y && strncmp_eq a' b' n'
      | _, _ => false
      end
  end.

(** [snprintf(dst, size, ...)] where the formatted text is [s]: at most
    [size - 1] bytes are stored. *)
Definition snprintf (size : nat) (s : list ascii) : list ascii :=
  firstn (size - 1) s.

(** *** ["%" PRId64] *)

Definition digit_char (d : Z) : ascii := ascii_of_nat (48 + Z.to_nat d).

(** Decimal digits of a non-negative number, most significant first.  The
    fuel is the largest number of digits a 64-bit magnitude can have. *)
Fixpoint fmt_u (fuel : nat) (n : Z) (acc : list ascii) : list ascii :=
  match fuel with
  | O => acc
  | S f =>
      let acc' := digit_char (n mod 10) :: acc in
      if n / 10 =? 0 then acc' else fmt_u f (n / 10) acc'
  end.

Definition fmt_d (n : Z) : list ascii :=
  if n <? 0 then "-"%char :: fmt_u 19 (- n) [] else fmt_u 19 n [].

(** *** [atoll] *)

Definition isspace (c : ascii) : bool :=
  let n := nat_of_ascii c in
  (Nat.eqb n 32 || (Nat.leb 9 n && Nat.leb n 13))%bool.

Definition isdigit (c : ascii) : bool :=
  let n := nat_of_ascii c in (Nat.leb 48 n && Nat.leb n 57)%bool.

Definition digit_val (c : ascii) : Z := Z.of_nat (nat_of_ascii c) - 48.

Fixpoint skip_spaces (l : list ascii) : list ascii :=
  match l with
  | c :: l' => if isspace c then skip_spaces l' else l
  | [] => []
  end.

Fixpoint parse_digits (l : list ascii) (acc : Z) : Z :=
  match l with
  | c :: l' => if isdigit c then parse_digits l' (acc * 10 + digit_val c) else acc
  | [] => acc
  end.

(** Out-of-range values saturate, as [strtoll] does. *)
Definition clamp64 (z : Z) : Z := Z.max INT64_MIN (Z.min INT64_MAX z).

(** [atoll(s)]: optional white space, optional sign, then the longest run
    of decimal digits; 0 when there is no digit. *)
Definition atoll (s : list ascii) : Z :=
  match skip_spaces s with
  | c :: r =>
      if Ascii.eqb c "-" then clamp64 (- parse_digits r 0)
      else if Ascii.eqb c "+" then clamp64 (parse_digits r 0)
      else clamp64 (parse_digits (c :: r) 0)
  | [] => 0
  end.

(** ** Data model *)

(** [client_t]: one slot of the table.  [c_name] is the C string held in
    the [char name[NAME_LEN]] buffer; the [thread] handle is not
    modelled. *)
Record client_t := mk_client {
  c_fd : Z;
  c_alive : bool;
  c_id : Z;
  c_name : list ascii
}.

(** The globals: [clients], [next_id], [listen_fd], and whether [logf] is
    a non-null [FILE *]. *)
Record server_state := mk_state {
  clients : list client_t;
  next_id : Z;
  listen_fd : Z;
  logf : bool
}.

Definition set_clients (cs : list client_t) (st : server_state) : server_state :=
  mk_state cs (next_id st) (listen_fd st) (logf st).

(** A zeroed slot, as left by [memset(clients, 0, sizeof(clients))]. *)
Definition zero_client : client_t := mk_client 0 false 0 [].

(** State of [main] once the log file and the listening socket exist. *)
Definition init_state (lfd : Z) (log_open : bool) : server_state :=
  mk_state (replicate MAX_CLIENTS zero_client) 1 lfd log_open.

(** Calls that leave the process. *)
Inductive event :=
| EvSend (fd : Z) (msg : list ascii)   (* send_all(fd, msg, strlen(msg)) *)
| EvClose (fd : Z)                     (* close(fd) *)
| EvLog (line : list ascii)            (* one record written by log_event *)
| EvFclose.                            (* fclose(logf) *)

(** ** A state and trace monad *)

Definition M (A : Type) : Type := server_state -> A * server_state * list event.

#[global] Instance M_ret : MRet M := fun A a st => (a, st, []).
#[global] Instance M_bind : MBind M := fun A B k m st =>
  let '(a, st1, ev1) := m st in
  let '(b, st2, ev2) := k a st1 in
  (b, st2, ev1 ++ ev2).

Definition emit (e : event) : M unit := fun st => (tt, st, [e]).
Definition get_state : M server_state := fun st => (st, st, []).

Definition result_of {A} (r : A * server_state * list event) : A := r.1.1.
Definition state_of {A} (r : A * server_state * list event) : server_state := r.1.2.
Definition events_of {A} (r : A * server_state * list event) : list event := r.2.

(** [send_str(fd, s)]: the return value of [send_all] is ignored by every
    caller, so only the call is recorded. *)
Definition send_str (fd : Z) (s : list ascii) : M unit := emit (EvSend fd s).

(** [log_event(fmt, ...)]: nothing when [logf] is null.  The time stamp
    prefix is left out of the recorded line. *)
Definition log_event (line : list ascii) : M unit := fun st =>
  if logf st then (tt, st, [EvLog line]) else (tt, st, []).

(** ** Client registry *)

(** [find_free_slot]: index of the first slot that is not alive, or -1. *)
Fixpoint find_free_from (i : Z) (cs : list client_t) : Z :=
  match cs with
  | [] => -1
  | c :: cs' => if c_alive c then find_free_from (i + 1) cs' else i
  end.

Definition find_free_slot (st : server_state) : Z :=
  find_free_from 0 (clients st).

(** [add_client(fd)]: takes the first free slot, gives it the next id and
    the name [Client-<id>]; returns the slot, or -1 when the table is
    full. *)
Definition add_client (fd : Z) : M Z := fun st =>
  let slot := find_free_slot st in
  if 0 <=? slot then
    let new_id := next_id st in
    let c := mk_client fd true new_id
                       (snprintf NAME_LEN (lit "Client-" ++ fmt_d new_id)) in
    (slot,
     mk_state (<[Z.to_nat slot := c]> (clients st)) (wrap64 (new_id + 1))
              (listen_fd st) (logf st),
     [])
  else (slot, st, []).

(** [remove_client(slot)]: closes the handle and resets the slot, when the
    slot is in range and alive. *)
Definition remove_client (slot : Z) : M unit := fun st =>
  if (0 <=? slot) && (slot <? Z.of_nat MAX_CLIENTS) then
    match clients st !! Z.to_nat slot with
    | Some c =>
        if c_alive c then
          (tt,
           set_clients (<[Z.to_nat slot := mk_client (c_fd c) false 0 []]> (clients st)) st,
           [EvClose (c_fd c)])
        else (tt, st, [])
    | None => (tt, st, [])
    end
  else (tt, st, []).

(** [find_by_id(id)]: the first live slot holding [id]. *)
Fixpoint find_by_id_in (tid : Z) (cs : list client_t) : option client_t :=
  match cs with
  | [] => None
  | c :: cs' => if c_alive c && (c_id c =? tid) then Some c else find_by_id_in tid cs'
  end.

Definition find_by_id (tid : Z) : M (option client_t) := fun st =>
  (find_by_id_in tid (clients st), st, []).

(** The critical section of the [/name] branch of [client_thread]:
    [nl = strnlen(newn, NAME_LEN - 1)], then [nl] bytes are copied into
    [clients[slot].name] and terminated.  The thread's own copy [my_name]
    receives the same string, which is the value returned. *)
Definition set_name (slot : Z) (newn : list ascii) : M (list ascii) := fun st =>
  let nm := firstn (NAME_LEN - 1) newn in
  (nm,
   set_clients (alter (fun c => mk_client (c_fd c) (c_alive c) (c_id c) nm)
                      (Z.to_nat slot) (clients st)) st,
   []).

(** ** Broadcast *)

(** The sends of [broadcast_except(msg, except_fd)], in slot order. *)
Fixpoint broadcast_events (msg : list ascii) (except_fd : Z) (cs : list client_t)
  : list event :=
  match cs with
  | [] => []
  | c :: cs' =>
      if c_alive c && negb (c_fd c =? except_fd)
      then EvSend (c_fd c) msg :: broadcast_events msg except_fd cs'
      else broadcast_events msg except_fd cs'
  end.

Definition broadcast_except (msg : list ascii) (except_fd : Z) : M unit := fun st =>
  (tt, st, broadcast_events msg except_fd (clients st)).

(** ** Listing *)

Definition list_header : list ascii := lit "=== Connected Users ===" ++ [LF].
Definition list_footer : list ascii := lit "=======================" ++ [LF].

(** The line ["ID:%" PRId64 "  %s\n"] of one session. *)
Definition user_line (c : client_t) : list ascii :=
  lit "ID:" ++ fmt_d (c_id c) ++ lit "  " ++ c_name c ++ [LF].

(** [pos += snprintf(out + pos, sizeof(out) - pos, ...)] on the local
    [char out[4096]]: [out] is the C string in the buffer, [pos] the
    running offset.  When the text does not fit, [pos] moves past the
    terminator and later writes no longer extend the string. *)
Definition snprintf_at (out : list ascii) (pos : nat) (s : list ascii)
  : list ascii * nat :=
  (if Nat.eqb pos (length out) then out ++ firstn (BUF_SIZE - pos - 1) s else out,
   (pos + length s)%nat).

(** The loop of [list_users]: it stops at the first slot reached with
    [pos + 64 >= sizeof(out)]. *)
Fixpoint list_users_loop (cs : list client_t) (out : list ascii) (pos : nat)
  : list ascii * nat :=
  match cs with
  | [] => (out, pos)
  | c :: cs' =>
      if Nat.ltb (pos + 64) BUF_SIZE then
        if c_alive c then
          let '(out', pos') := snprintf_at out pos (user_line c) in
          list_users_loop cs' out' pos'
        else list_users_loop cs' out pos
      else (out, pos)
  end.

(** The text assembled by [list_users]. *)
Definition list_users_text (cs : list client_t) : list ascii :=
  let '(out0, pos0) := snprintf_at [] 0 list_header in
  let '(out1, pos1) := list_users_loop cs out0 pos0 in
  (snprintf_at out1 pos1 list_footer).1.

Definition list_users (fd : Z) : M unit := fun st =>
  (tt, st, [EvSend fd (list_users_text (clients st))]).

(** ** Shutdown *)

Definition shutdown_notice : list ascii := lit "[Server] Shutting down." ++ [LF].

(** The loop of [shutdown_server]: every live slot is notified, closed and
    marked dead.  Only [alive] is written. *)
Fixpoint shutdown_clients (cs : list client_t) : list client_t * list event :=
  match cs with
  | [] => ([], [])
  | c :: cs' =>
      let '(cs'', ev) := shutdown_clients cs' in
      if c_alive c then
        (mk_client (c_fd c) false (c_id c) (c_name c) :: cs'',
         EvSend (c_fd c) shutdown_notice :: EvClose (c_fd c) :: ev)
      else (c :: cs'', ev)
  end.

(** [shutdown_server]: [listen_fd] and [logf] keep their values. *)
Definition shutdown_server : M unit := fun st =>
  let ev_listen := if listen_fd st =? -1 then [] else [EvClose (listen_fd st)] in
  let '(cs, ev_clients) := shutdown_clients (clients st) in
  let ev_log := if logf st then [EvLog (lit "SERVER SHUTDOWN"); EvFclose] else [] in
  (tt, set_clients cs st, ev_listen ++ ev_clients ++ ev_log).

(** ** Command interpreter *)

(** The locals of one [client_thread]. *)
Record session := mk_session {
  s_slot : Z;
  s_fd : Z;
  my_id : Z;
  my_name : list ascii
}.

Definition with_name (s : session) (nm : list ascii) : session :=
  mk_session (s_slot s) (s_fd s) (my_id s) nm.

(** How one pass through the [while (1)] body ends. *)
Inductive loop_ctl :=
| Continue (s : session)
| Break.

Definition is_eol (c : ascii) : bool := Ascii.eqb c LF || Ascii.eqb c CR.

(** [while (n > 0 && (buf[n-1] == '\n' || buf[n-1] == '\r')) buf[--n] = '\0';] *)
Fixpoint strip_eol (l : list ascii) : list ascii :=
  match l with
  | [] => []
  | c :: l' =>
      match strip_eol l' with
      | [] => if is_eol c then [] else [c]
      | r => c :: r
      end
  end.

(** The pointer [p] of the [/msg] branch is advanced to the first space
    or to the terminator, then over that one space. *)
Fixpoint skip_field (p : list ascii) : list ascii :=
  match p with
  | [] => []
  | c :: p' => if Ascii.eqb c SP then p' else skip_field p'
  end.

(** The rendered lines. *)
Definition welcome_msg (nm : list ascii) (i : Z) : list ascii :=
  lit "Welcome " ++ nm ++ lit " (ID:" ++ fmt_d i ++ lit ")" ++ [LF]
  ++ lit "Commands: /name <new>, /list, /msg <id> <text>, /quit" ++ [LF].
Definition joined_msg (nm : list ascii) (i : Z) : list ascii :=
  lit "[Server] " ++ nm ++ lit " (ID:" ++ fmt_d i ++ lit ") joined." ++ [LF].
Definition disconnected_msg (nm : list ascii) (i : Z) : list ascii :=
  lit "[Server] " ++ nm ++ lit " (ID:" ++ fmt_d i ++ lit ") disconnected." ++ [LF].
Definition renamed_msg (nm : list ascii) (i : Z) : list ascii :=
  lit "[Server] ID " ++ fmt_d i ++ lit " is now known as " ++ nm ++ [LF].
Definition pm_msg (nm : list ascii) (i : Z) (text : list ascii) : list ascii :=
  lit "[PM from " ++ nm ++ lit " (ID:" ++ fmt_d i ++ lit ")]: " ++ text ++ [LF].
Definition chat_msg (nm : list ascii) (i : Z) (text : list ascii) : list ascii :=
  nm ++ lit " (ID:" ++ fmt_d i ++ lit "): " ++ text ++ [LF].

Definition usage_msg : list ascii := lit "Usage: /name <newname>" ++ [LF].
Definition pm_sent_msg : list ascii := lit "[PM sent]" ++ [LF].
Definition not_found_msg : list ascii := lit "User not found." ++ [LF].
Definition unknown_msg : list ascii := lit "Unknown command." ++ [LF].
Definition server_full_msg : list ascii := lit "Server full." ++ [LF].

(** The log records. *)
Definition log_connect (nm : list ascii) (i : Z) : list ascii :=
  lit "CONNECT id=" ++ fmt_d i ++ lit " name=" ++ nm.
Definition log_disconnect (nm : list ascii) (i : Z) : list ascii :=
  lit "DISCONNECT id=" ++ fmt_d i ++ lit " name=" ++ nm.
Definition log_rename (nm : list ascii) (i : Z) : list ascii :=
  lit "RENAME id=" ++ fmt_d i ++ lit " name=" ++ nm.
Definition log_pm (from to : Z) (text : list ascii) : list ascii :=
  lit "PM from=" ++ fmt_d from ++ lit " to=" ++ fmt_d to ++ lit " text=" ++ text.
Definition log_msg (nm : list ascii) (i : Z) (text : list ascii) : list ascii :=
  lit "MSG id=" ++ fmt_d i ++ lit " name=" ++ nm ++ lit " text=" ++ text.

(** The [/name ] branch; [newn] is [buf + 6]. *)
Definition do_name (s : session) (newn : list ascii) : M loop_ctl :=
  match newn with
  | [] => send_str (s_fd s) usage_msg;; mret (Continue s)
  | _ :: _ =>
      nm ← set_name (s_slot s) newn;
      broadcast_except (snprintf BUF_SIZE (renamed_msg nm (my_id s))) (-1);;
      log_event (log_rename nm (my_id s));;
      mret (Continue (with_name s nm))
  end.

(** The [/msg ] branch; [p] is [buf + 5]. *)
Definition do_msg (s : session) (p : list ascii) : M loop_ctl :=
  let tid := atoll p in
  let text := skip_field p in
  tgt ← find_by_id tid;
  match tgt with
  | Some t =>
      send_str (c_fd t) (snprintf (BUF_SIZE + 64) (pm_msg (my_name s) (my_id s) text));;
      send_str (s_fd s) pm_sent_msg;;
      log_event (log_pm (my_id s) (c_id t) text);;
      mret (Continue s)
  | None => send_str (s_fd s) not_found_msg;; mret (Continue s)
  end.

(** The body of the [if (buf[0] == '/')] block, on the C string [buf]. *)
Definition do_command (s : session) (buf : list ascii) : M loop_ctl :=
  if strncmp_eq buf (lit "/quit") 5 then mret Break
  else if strncmp_eq buf (lit "/name ") 6 then do_name s (drop 6 buf)
  else if strncmp_eq buf (lit "/list") 5 then list_users (s_fd s);; mret (Continue s)
  else if strncmp_eq buf (lit "/msg ") 5 then do_msg s (drop 5 buf)
  else send_str (s_fd s) unknown_msg;; mret (Continue s).

(** One pass through the loop body after a [recv] that returned the
    [n > 0] bytes [chunk]. *)
Definition handle_line (s : session) (chunk : list ascii) : M loop_ctl :=
  let data := strip_eol chunk in
  if Nat.eqb (length data) 0 then mret Break
  else
    let buf := cstr data in
    match buf with
    | "/"%char :: _ => do_command s buf
    | _ =>
        broadcast_except
          (snprintf (BUF_SIZE + 64) (chat_msg (my_name s) (my_id s) buf)) (s_fd s);;
        log_event (log_msg (my_name s) (my_id s) buf);;
        mret (Continue s)
    end.

(** The [while (1)] loop over the successive results of [recv].  An empty
    chunk stands for a [recv] that returned [n <= 0], and so does the end
    of the list. *)
Fixpoint client_loop (s : session) (inputs : list (list ascii)) : M session :=
  match inputs with
  | [] => mret s
  | chunk :: rest =>
      if Nat.eqb (length chunk) 0 then mret s
      else
        r ← handle_line s chunk;
        match r with
        | Break => mret s
        | Continue s' => client_loop s' rest
        end
  end.

(** The disconnect sequence after the loop. *)
Definition client_disconnect (s : session) : M unit :=
  broadcast_except (snprintf BUF_SIZE (disconnected_msg (my_name s) (my_id s))) (s_fd s);;
  log_event (log_disconnect (my_name s) (my_id s));;
  remove_client (s_slot s).

(** The part of [client_thread] after the announcements: the read loop,
    then the disconnect sequence. *)
Definition client_serve (s : session) (inputs : list (list ascii)) : M unit :=
  s' ← client_loop s inputs;
  client_disconnect s'.

(** The locals read from the slot at thread start. *)
Definition session_of (slot : Z) (st : server_state) : session :=
  let c := default zero_client (clients st !! Z.to_nat slot) in
  mk_session slot (c_fd c) (c_id c) (snprintf NAME_LEN (c_name c)).

(** [client_thread] for the slot [slot], reading [inputs]. *)
Definition client_thread (slot : Z) (inputs : list (list ascii)) : M unit :=
  st ← get_state;
  let s := session_of slot st in
  send_str (s_fd s) (snprintf BUF_SIZE (welcome_msg (my_name s) (my_id s)));;
  broadcast_except (snprintf BUF_SIZE (joined_msg (my_name s) (my_id s))) (s_fd s);;
  log_event (log_connect (my_name s) (my_id s));;
  client_serve s inputs.

(** The body of the accept loop of [main] for one accepted handle: the
    slot is returned to stand for the thread that is started on it.  (The
    branch taken when [malloc] fails is left out.) *)
Definition accept_client (client_fd : Z) : M Z :=
  slot ← add_client client_fd;
  if slot <? 0 then
    send_str client_fd server_full_msg;;
    emit (EvClose client_fd);;
    mret slot
  else mret slot.

(** ** Registry operations as data

    The operations on the table, for statements that range over all of
    them and over sequences of them. *)
Inductive reg_op :=
| OpAdd (fd : Z)                              (* add_client *)
| OpRemove (slot : Z)                         (* remove_client *)
| OpRename (slot : Z) (newn : list ascii)     (* the /name critical section *)
| OpFind (tid : Z)                            (* find_by_id *)
| OpBroadcast (msg : list ascii) (except_fd : Z)
| OpList (fd : Z)                             (* list_users *)
| OpShutdown.                                 (* shutdown_server *)

(** The id stored in a slot. *)
Definition id_at (slot : Z) (st : server_state) : Z :=
  c_id (default zero_client (clients st !! Z.to_nat slot)).

(** Runs one operation; the result is the id handed out, for an
    [add_client] that found a slot. *)
Definition exec_op (o : reg_op) : M (option Z) :=
  match o with
  | OpAdd fd =>
      slot ← add_client fd;
      st ← get_state;
      mret (if slot <? 0 then None else Some (id_at slot st))
  | OpRemove slot => remove_client slot;; mret None
  | OpRename slot newn => set_name slot newn;; mret None
  | OpFind tid => find_by_id tid;; mret None
  | OpBroadcast msg except_fd => broadcast_except msg except_fd;; mret None
  | OpList fd => list_users fd;; mret None
  | OpShutdown => shutdown_server;; mret None
  end.

(** The ids handed out along a sequence of operations, oldest first. *)
Fixpoint assigned_ids (ops : list reg_op) (st : server_state) : list Z :=
  match ops with
  | [] => []
  | o :: ops' =>
      let r := exec_op o st in
      match result_of r with
      | Some i => i :: assigned_ids ops' (state_of r)
      | None => assigned_ids ops' (state_of r)
      end
  end.

(** What the callers guarantee: [main] only registers handles returned by
    a successful [accept], the id counter has not run out, and a thread
    renames its own, live slot. *)
Definition op_pre (o : reg_op) (st : server_state) : Prop :=
  match o with
  | OpAdd fd => 0 <= fd /\ next_id st < INT64_MAX
  | OpRename slot _ =>
      0 <= slot /\ exists c, clients st !! Z.to_nat slot = Some c /\ c_alive c = true
  | _ => True
  end.

(** ** Invariants *)

(** No two live slots hold the same id. *)
Definition ids_unique (cs : list client_t) : Prop :=
  forall i j ci cj,
    cs !! i = Some ci -> cs !! j = Some cj ->
    c_alive ci = true -> c_alive cj = true ->
    c_id ci = c_id cj -> i = j.

(** Every slot that is not alive has its id zeroed and its name empty. *)
Definition slots_reset (cs : list client_t) : Prop :=
  forall c, c ∈ cs -> c_alive c = false -> c_id c = 0 /\ c_name c = [].

Definition live_count (cs : list client_t) : nat :=
  length (List.filter c_alive cs).

(** The registry invariant of the data model: bounded number of live
    sessions, unique live ids, dead slots reset. *)
Definition state_invariant (st : server_state) : Prop :=
  (live_count (clients st) <= MAX_CLIENTS)%nat
  /\ ids_unique (clients st)
  /\ slots_reset (clients st).

(** Facts about the table that the operations maintain next to it: the
    table has [MAX_CLIENTS] slots, live ids lie below the counter, names
    fit their buffer, live handles are real descriptors. *)
Record registry_wf (st : server_state) : Prop := mk_wf {
  wf_length : length (clients st) = MAX_CLIENTS;
  wf_next : 1 <= next_id st <= INT64_MAX;
  wf_live_ids : forall c, c ∈ clients st -> c_alive c = true -> 1 <= c_id c < next_id st;
  wf_names : forall c, c ∈ clients st -> (length (c_name c) <= NAME_LEN - 1)%nat;
  wf_fds : forall c, c ∈ clients st -> c_alive c = true -> 0 <= c_fd c
}.

(** What [shutdown_server] does to one slot: only [alive] is cleared. *)
Definition kill (c : client_t) : client_t :=
  mk_client (c_fd c) false (c_id c) (c_name c).

(** ** Listing, as a whole *)

(** One line per live session, in slot order. *)
Definition live_lines (cs : list client_t) : list ascii :=
  concat (map user_line (List.filter c_alive cs)).

(** Header, every live session, footer. *)
Definition full_listing (cs : list client_t) : list ascii :=
  list_header ++ live_lines cs ++ list_footer.

(** ** Decimal numerals

    The number a string of decimal digits denotes, by position: the
    reading of an id field that the statements about [/msg] refer to. *)
Definition digit_of_char (c : ascii) : Z :=
  match c with
  | "0"%char => 0 | "1"%char => 1 | "2"%char => 2 | "3"%char => 3 | "4"%char => 4
  | "5"%char => 5 | "6"%char => 6 | "7"%char => 7 | "8"%char => 8 | "9"%char => 9
  | _ => 0
  end.

Fixpoint numeral_value (l : list ascii) : Z :=
  match l with
  | [] => 0
  | c :: r => digit_of_char c * 10 ^ Z.of_nat (length r) + numeral_value r
  end.

(** ** Numeric start of an id field

    Whether [atoll] finds a digit: after white space and one optional
    sign. *)
Definition starts_numeric (p : list ascii) : bool :=
  match skip_spaces p with
  | c :: r =>
      if Ascii.eqb c "-" || Ascii.eqb c "+"
      then match r with d :: _ => isdigit d | [] => false end
      else isdigit c
  | [] => false
  end.

(** ** Sample states *)

(** Repeats [f 0; f 1; ...; f (n-1)]. *)
Fixpoint for_upto (n : nat) (f : nat -> M unit) : M unit :=
  match n with
  | O => mret tt
  | S k => for_upto k f;; f k
  end.

(** Handles 4, 5, ... are accepted one after the other. *)
Definition accept_many (n : nat) : M unit :=
  for_upto n (fun i => accept_client (Z.of_nat i + 4);; mret tt).

(** Two, and three, connected sessions; listening handle 3, log open. *)
Definition two_clients : server_state :=
  Eval vm_compute in state_of (accept_many 2 (init_state 3 true)).
Definition three_clients : server_state :=
  Eval vm_compute in state_of (accept_many 3 (init_state 3 true)).

(** Every slot taken. *)
Definition full_house : server_state :=
  state_of (accept_many MAX_CLIENTS (init_state 3 true)).

(** Every slot taken, and every session renamed to a name of 31 bytes. *)
Definition long_name : list ascii := repeat "a"%char 31.
Definition crowded : server_state :=
  state_of ((accept_many MAX_CLIENTS;;
             for_upto MAX_CLIENTS (fun i => set_name (Z.of_nat i) long_name;; mret tt))
              (init_state 3 true)).

(** ** The rest of the accept loop *)

(** The accept loop of [main] on one accepted handle when [malloc] for the
    thread argument fails: the slot just taken is given back. *)
Definition accept_client_nomem (client_fd : Z) : M Z :=
  slot ← add_client client_fd;
  if slot <? 0 then
    send_str client_fd server_full_msg;;
    emit (EvClose client_fd);;
    mret slot
  else
    remove_client slot;;
    mret slot.

(** ** [send_all]

    The loop of [send_all] against the successive answers of [send]: each
    answer is the value returned and whether [errno] is [EINTR].  A
    positive answer [n] means that the next [n] bytes were taken.  The
    result is the value returned by [send_all] and the pieces taken, in
    order; [None] when the answers run out while the loop is still
    running. *)
Fixpoint send_all (answers : list (Z * bool)) (buf : list ascii) (sent : nat)
  : option (Z * list (list ascii)) :=
  if Nat.ltb sent (length buf) then
    match answers with
    | [] => None
    | (n, eintr) :: rest =>
        if n <=? 0 then
          if (n <? 0) && eintr then send_all rest buf sent
          else Some (-1, [])
        else
          match send_all rest buf (sent + Z.to_nat n) with
          | Some (r, pieces) => Some (r, firstn (Z.to_nat n) (skipn sent buf) :: pieces)
          | None => None
          end
    end
  else Some (0, []).

(** ** The input loop of the client

    The [while (fgets(...))] loop of the client's [main].  Each input is a
    line returned by [fgets] together with the value [send] returns for
    it; the result lists what the socket took, in order.  The list ending
    stands for end of input. *)
Fixpoint client_input_loop (inputs : list (list ascii * Z)) : list (list ascii) :=
  match inputs with
  | [] => []
  | (line, n) :: rest =>
      let l := cstr line in
      if Nat.eqb (length l) 0 then client_input_loop rest
      else if n <=? 0 then []
      else
        firstn (Z.to_nat n) l
        :: (if strncmp_eq l (lit "/quit") 5 then [] else client_input_loop rest)
  end.

(** All the bytes of [l] are line ends. *)
Definition all_eol (l : list ascii) : Prop := Forall (fun c => is_eol c = true) l.

(** ** What a session thread may do *)

(** Events that only carry text to a peer or to the log: no handle is
    closed. *)
Definition is_message (e : event) : Prop :=
  match e with
  | EvSend _ _ | EvLog _ => True
  | EvClose _ | EvFclose => False
  end.

(** [st'] is [st] up to the name stored in slot [i]. *)
Definition renamed_only (i : nat) (st st' : server_state) : Prop :=
  next_id st' = next_id st
  /\ listen_fd st' = listen_fd st
  /\ logf st' = logf st
  /\ (forall j, j <> i -> clients st' !! j = clients st !! j)
  /\ (forall c, clients st !! i = Some c ->
      exists nm, clients st' !! i = Some (mk_client (c_fd c) (c_alive c) (c_id c) nm)).

(** * Properties *)

(** ** Formatting and buffers *)

Lemma length_fmt_u fuel n acc :
  (length (fmt_u fuel n acc) <= fuel + length acc)%nat.
Proof.
  revert n acc; induction fuel as [|fuel IH]; intros n acc; simpl; [lia|].
  destruct (n / 10 =? 0); simpl; [lia|].
  specialize (IH (n / 10) (digit_char (n mod 10) :: acc)); simpl in IH; lia.
Qed.

Lemma length_fmt_d n : (length (fmt_d n) <= 20)%nat.
Proof.
  unfold fmt_d; destruct (n <? 0).
  - pose proof (length_fmt_u 19 (- n) []) as H.
    change (length (@nil ascii)) with 0%nat in H.
    change (S (length (fmt_u 19 (- n) [])) <= 20)%nat. lia.
  - pose proof (length_fmt_u 19 n []) as H.
    change (length (@nil ascii)) with 0%nat in H. lia.
Qed.

Lemma snprintf_fits size s :
  (length s <= size - 1)%nat -> snprintf size s = s.
Proof. intros H; unfold snprintf; now apply firstn_all2. Qed.

Lemma length_cstr l : (length (cstr l) <= length l)%nat.
Proof.
  induction l as [|c l IH]; simpl; [lia|].
  destruct (Ascii.eqb c NUL); simpl; lia.
Qed.

Lemma length_strip_eol l : (length (strip_eol l) <= length l)%nat.
Proof.
  induction l as [|c l IH]; simpl; [lia|].
  destruct (strip_eol l); [destruct (is_eol c)|]; simpl in *; lia.
Qed.

Lemma length_received chunk :
  (length (cstr (strip_eol chunk)) <= length chunk)%nat.
Proof.
  pose proof (length_cstr (strip_eol chunk)).
  pose proof (length_strip_eol chunk). lia.
Qed.

(** *** Characters *)

Lemma isdigit_not_space c : isdigit c = true -> isspace c = false.
Proof.
  unfold isdigit, isspace; cbv zeta; intros H.
  apply andb_true_iff in H as [H1 H2].
  apply Nat.leb_le in H1, H2.
  apply orb_false_iff; split; [apply Nat.eqb_neq; lia|].
  apply andb_false_iff; right; apply Nat.leb_gt; lia.
Qed.

Lemma isdigit_not_SP c : isdigit c = true -> c <> SP.
Proof. intros H ->; discriminate H. Qed.

Lemma isdigit_not_sign c :
  isdigit c = true -> Ascii.eqb c "-" = false /\ Ascii.eqb c "+" = false.
Proof.
  intros H; split; apply Ascii.eqb_neq; intros ->; discriminate H.
Qed.

(** *** The decimal rendering is read back by [atoll]

    In particular the fuel of [fmt_u] is enough for every 64-bit value. *)

Lemma digit_char_spec d :
  0 <= d < 10 -> isdigit (digit_char d) = true /\ digit_val (digit_char d) = d.
Proof.
  intros H.
  assert (E : d = 0 \/ d = 1 \/ d = 2 \/ d = 3 \/ d = 4 \/ d = 5 \/ d = 6
              \/ d = 7 \/ d = 8 \/ d = 9) by lia.
  repeat (destruct E as [->|E]; [split; reflexivity|]). subst; split; reflexivity.
Qed.

Lemma parse_digits_digit d l a :
  0 <= d < 10 -> parse_digits (digit_char d :: l) a = parse_digits l (a * 10 + d).
Proof.
  intros H; destruct (digit_char_spec d H) as [Hd Hv].
  cbn [parse_digits]. now rewrite Hd, Hv.
Qed.

Lemma parse_fmt_u fuel : forall n acc a,
  0 <= n < 10 ^ Z.of_nat fuel ->
  exists k, 0 <= k /\ parse_digits (fmt_u fuel n acc) a = parse_digits acc (a * 10 ^ k + n).
Proof.
  induction fuel as [|fuel IH]; intros n acc a Hn.
  - exists 0. split; [lia|]. cbn [fmt_u]. f_equal.
    change (10 ^ Z.of_nat 0) with 1 in Hn. lia.
  - rewrite Nat2Z.inj_succ, Z.pow_succ_r in Hn by lia.
    pose proof (Z.mod_pos_bound n 10 ltac:(lia)) as Hm.
    pose proof (Z.div_mod n 10 ltac:(lia)) as Hdm.
    cbn [fmt_u]. destruct (n / 10 =? 0) eqn:E.
    + exists 1. split; [lia|]. rewrite parse_digits_digit by exact Hm.
      f_equal. lia.
    + assert (Hq : 0 <= n / 10 < 10 ^ Z.of_nat fuel).
      { split; [apply Z.div_pos; lia|apply Z.div_lt_upper_bound; lia]. }
      destruct (IH (n / 10) (digit_char (n mod 10) :: acc) a Hq) as (k & Hk & Hp).
      exists (k + 1). split; [lia|]. rewrite Hp, parse_digits_digit by exact Hm.
      f_equal. rewrite Z.pow_add_r by lia. lia.
Qed.

Lemma fmt_u_head fuel : forall n acc,
  exists d r, fmt_u (S fuel) n acc = digit_char d :: r /\ 0 <= d < 10.
Proof.
  induction fuel as [|fuel IH]; intros n acc.
  - exists (n mod 10), acc. split; [|apply Z.mod_pos_bound; lia].
    cbn [fmt_u]. now destruct (n / 10 =? 0).
  - change (fmt_u (S (S fuel)) n acc)
      with (if n / 10 =? 0 then digit_char (n mod 10) :: acc
            else fmt_u (S fuel) (n / 10) (digit_char (n mod 10) :: acc)).
    destruct (n / 10 =? 0); [|apply IH].
    exists (n mod 10), acc. split; [reflexivity|apply Z.mod_pos_bound; lia].
Qed.

Lemma fmt_u_digits fuel : forall n acc,
  Forall (fun c => isdigit c = true) acc ->
  Forall (fun c => isdigit c = true) (fmt_u fuel n acc).
Proof.
  induction fuel as [|fuel IH]; intros n acc Hacc; [exact Hacc|].
  pose proof (Z.mod_pos_bound n 10 ltac:(lia)) as Hm.
  destruct (digit_char_spec (n mod 10) Hm) as [Hd _].
  cbn [fmt_u]. destruct (n / 10 =? 0); [now constructor|].
  apply IH. now constructor.
Qed.

Lemma fmt_d_digits n :
  0 <= n -> fmt_d n <> [] /\ Forall (fun c => isdigit c = true) (fmt_d n).
Proof.
  intros Hn. unfold fmt_d. destruct (n <? 0) eqn:E; [lia|].
  split; [|apply fmt_u_digits; constructor].
  destruct (fmt_u_head 18 n []) as (d & r & -> & _). discriminate.
Qed.

Lemma skip_spaces_nonspace c r : isspace c = false -> skip_spaces (c :: r) = c :: r.
Proof. intros H; cbn [skip_spaces]. now rewrite H. Qed.

Lemma clamp64_id z : INT64_MIN <= z <= INT64_MAX -> clamp64 z = z.
Proof. unfold clamp64; lia. Qed.

Lemma atoll_fmt_d n : INT64_MIN <= n <= INT64_MAX -> atoll (fmt_d n) = n.
Proof.
  intros Hn.
  assert (P : 10 ^ Z.of_nat 19 = 10000000000000000000) by reflexivity.
  unfold fmt_d. destruct (n <? 0) eqn:E.
  - assert (Hr : 0 <= - n < 10 ^ Z.of_nat 19)
      by (rewrite P; unfold INT64_MIN in Hn; lia).
    destruct (parse_fmt_u 19 (- n) [] 0 Hr) as (k & _ & Hp).
    unfold atoll. rewrite skip_spaces_nonspace by reflexivity.
    change (Ascii.eqb "-" "-") with true. cbv iota.
    rewrite Hp. cbn [parse_digits].
    rewrite clamp64_id; lia.
  - assert (Hr : 0 <= n < 10 ^ Z.of_nat 19)
      by (rewrite P; unfold INT64_MAX in Hn; lia).
    destruct (parse_fmt_u 19 n [] 0 Hr) as (k & _ & Hp).
    destruct (fmt_u_head 18 n []) as (d & r & Hh & Hd).
    destruct (digit_char_spec d Hd) as [Hdig _].
    destruct (isdigit_not_sign _ Hdig) as [Hm Hs].
    unfold atoll. rewrite Hh, skip_spaces_nonspace by (now apply isdigit_not_space).
    rewrite Hm, Hs, <- Hh, Hp. cbn [parse_digits].
    rewrite clamp64_id; lia.
Qed.

(** ** The monad *)

Ltac unfold_M :=
  unfold mbind, mret, M_bind, M_ret, send_str, emit, get_state,
    broadcast_except, list_users, find_by_id, log_event,
    result_of, state_of, events_of in *.

Lemma bind_run {A B} (m : M A) (k : A -> M B) st :
  (m ≫= k) st =
  let '(a, st1, ev1) := m st in
  let '(b, st2, ev2) := k a st1 in (b, st2, ev1 ++ ev2).
Proof. reflexivity. Qed.

(** ** Dispatch *)

(** A chunk whose C string starts with [/] reaches the command block. *)
Lemma handle_line_command s chunk b :
  cstr (strip_eol chunk) = "/"%char :: b ->
  handle_line s chunk = do_command s ("/"%char :: b).
Proof.
  intros H; unfold handle_line.
  destruct (strip_eol chunk) as [|c r] eqn:E; [discriminate H|].
  simpl length; simpl Nat.eqb; cbv iota.
  now rewrite H.
Qed.

(** A chunk that strips to nothing leaves the loop. *)
Lemma handle_line_empty s chunk st :
  strip_eol chunk = [] -> handle_line s chunk st = (Break, st, []).
Proof. intros H; unfold handle_line; now rewrite H. Qed.

(** The loop stops at a [Break], whatever input follows. *)
Lemma client_loop_break s chunk rest st :
  handle_line s chunk st = (Break, st, []) ->
  client_loop s (chunk :: rest) st = (s, st, []).
Proof.
  intros H; simpl.
  destruct (Nat.eqb (length chunk) 0); [reflexivity|].
  rewrite bind_run, H; reflexivity.
Qed.

Lemma client_serve_break s chunk rest st :
  handle_line s chunk st = (Break, st, []) ->
  client_serve s (chunk :: rest) st = client_disconnect s st.
Proof.
  intros H; unfold client_serve.
  rewrite bind_run, (client_loop_break _ _ _ _ H).
  destruct (client_disconnect s st) as [[u st'] ev]; reflexivity.
Qed.

(** C1 (as amended).  A received chunk that is empty once its trailing
    line ends are stripped is handled like the end of the stream: the loop
    is left without any send and without touching the table, the input
    that follows is not read, and the thread goes on to its disconnect
    sequence. *)
Theorem empty_line_closes_session s chunk rest st :
  strip_eol chunk = [] ->
  handle_line s chunk st = (Break, st, [])
  /\ client_serve s (chunk :: rest) st = client_disconnect s st.
Proof.
  intros H; split.
  - now apply handle_line_empty.
  - apply client_serve_break, handle_line_empty, H.
Qed.

Lemma empty_line_closes_session_witness :
  strip_eol [CR; LF] = []
  /\ handle_line (session_of 0 two_clients) [CR; LF] two_clients
     = (Break, two_clients, [])
  /\ client_serve (session_of 0 two_clients) [[CR; LF]; lit "hello"] two_clients
     = client_disconnect (session_of 0 two_clients) two_clients.
Proof.
  split; [reflexivity|].
  apply (empty_line_closes_session (session_of 0 two_clients) [CR; LF]
           [lit "hello"] two_clients).
  reflexivity.
Defined.

(** C1 (as stated) fails: after the line [\n] the first session of
    [two_clients] is not kept: the loop ends, the other session is told
    of the disconnection, the handle is closed and the slot is freed; the
    line [hello] that follows is never read. *)
Lemma empty_line_counterexample :
  strip_eol [LF] = []
  /\ result_of (handle_line (session_of 0 two_clients) [LF] two_clients) = Break
  /\ events_of (client_serve (session_of 0 two_clients) [[LF]; lit "hello"] two_clients)
     = [EvSend 5 (lit "[Server] Client-1 (ID:1) disconnected." ++ [LF]);
        EvLog (lit "DISCONNECT id=1 name=Client-1");
        EvClose 4]
  /\ clients (state_of (client_serve (session_of 0 two_clients) [[LF]; lit "hello"] two_clients))
     <> clients two_clients.
Proof.
  split; [reflexivity|]. split; [reflexivity|]. split; [vm_compute; reflexivity|].
  vm_compute; discriminate.
Qed.

(** ** Fixed-length prefixes *)

Lemma do_command_quit s rest : do_command s (lit "/quit" ++ rest) = mret Break.
Proof. unfold do_command; cbn; reflexivity. Qed.

Lemma do_command_list s rest st :
  do_command s (lit "/list" ++ rest) st
  = (Continue s, st, [EvSend (s_fd s) (list_users_text (clients st))]).
Proof. unfold do_command; cbn; reflexivity. Qed.

Lemma do_command_name s newn st :
  do_command s (lit "/name " ++ newn) st = do_name s newn st.
Proof. unfold do_command; cbn; reflexivity. Qed.

Lemma do_command_msg s p st :
  do_command s (lit "/msg " ++ p) st = do_msg s p st.
Proof. unfold do_command; cbn; reflexivity. Qed.

Lemma do_command_name_nospace s rest st :
  head rest <> Some SP ->
  do_command s (lit "/name" ++ rest) st = (Continue s, st, [EvSend (s_fd s) unknown_msg]).
Proof.
  intros H; destruct rest as [|c r]; [reflexivity|].
  unfold do_command; cbn.
  destruct (Ascii.eqb_spec c " "%char) as [->|Hc]; [now elim H|].
  reflexivity.
Qed.

Lemma do_command_msg_nospace s rest st :
  head rest <> Some SP ->
  do_command s (lit "/msg" ++ rest) st = (Continue s, st, [EvSend (s_fd s) unknown_msg]).
Proof.
  intros H; destruct rest as [|c r]; [reflexivity|].
  unfold do_command; cbn.
  destruct (Ascii.eqb_spec c " "%char) as [->|Hc]; [now elim H|].
  reflexivity.
Qed.

(** *** The disconnect sequence, spelled out *)

Lemma broadcast_events_filter msg except_fd cs :
  broadcast_events msg except_fd cs
  = map (fun c => EvSend (c_fd c) msg)
        (List.filter (fun c => c_alive c && negb (c_fd c =? except_fd)) cs).
Proof.
  induction cs as [|c cs IH]; simpl; [reflexivity|].
  destruct (c_alive c && negb (c_fd c =? except_fd)); simpl; now rewrite IH.
Qed.

Lemma remove_client_live slot st c :
  0 <= slot < Z.of_nat MAX_CLIENTS ->
  clients st !! Z.to_nat slot = Some c -> c_alive c = true ->
  remove_client slot st
  = (tt,
     set_clients (<[Z.to_nat slot := mk_client (c_fd c) false 0 []]> (clients st)) st,
     [EvClose (c_fd c)]).
Proof.
  intros Hr L A. unfold remove_client.
  assert (G : (0 <=? slot) && (slot <? Z.of_nat MAX_CLIENTS) = true)
    by (apply andb_true_iff; split; lia).
  now rewrite G, L, A.
Qed.

Lemma client_disconnect_run s st c :
  0 <= s_slot s < Z.of_nat MAX_CLIENTS ->
  clients st !! Z.to_nat (s_slot s) = Some c -> c_alive c = true ->
  client_disconnect s st
  = (tt,
     set_clients (<[Z.to_nat (s_slot s) := mk_client (c_fd c) false 0 []]> (clients st)) st,
     (broadcast_events (snprintf BUF_SIZE (disconnected_msg (my_name s) (my_id s)))
        (s_fd s) (clients st)
      ++ (if logf st then [EvLog (log_disconnect (my_name s) (my_id s))] else []))
     ++ [EvClose (c_fd c)]).
Proof.
  intros Hr Hl Ha. unfold client_disconnect. unfold_M.
  destruct (logf st); cbv beta iota zeta;
    rewrite (remove_client_live _ _ c Hr Hl Ha);
    cbn [app]; now rewrite ?app_nil_r, <- ?app_assoc.
Qed.

Lemma length_disconnected_msg nm i :
  length (disconnected_msg nm i) = (30 + length nm + length (fmt_d i))%nat.
Proof. unfold disconnected_msg; rewrite !length_app; simpl; lia. Qed.

(** C10.  Dispatch compares fixed-length prefixes only.  Any line that
    begins with [/quit] ends the session: the loop is left, and for the
    thread of a live slot the disconnect sequence tells every live
    session on another handle that the session has disconnected, writes
    the log record, closes the session's handle and frees its slot,
    whatever input follows.  Any line that begins with [/list] sends the
    listing to the requester; [/name] and [/msg] followed by a space
    reach the rename and private-message branches, and followed by
    anything else, or by nothing, are answered with "Unknown command.". *)
Theorem command_dispatch s chunk rest more st :
  (cstr (strip_eol chunk) = lit "/quit" ++ rest ->
     handle_line s chunk st = (Break, st, [])
     /\ client_serve s (chunk :: more) st = client_disconnect s st
     /\ (forall c,
           0 <= s_slot s < Z.of_nat MAX_CLIENTS ->
           clients st !! Z.to_nat (s_slot s) = Some c -> c_alive c = true ->
           (length (my_name s) <= NAME_LEN - 1)%nat ->
           client_serve s (chunk :: more) st
           = (tt,
              set_clients
                (<[Z.to_nat (s_slot s) := mk_client (c_fd c) false 0 []]> (clients st)) st,
              (map (fun c' => EvSend (c_fd c') (disconnected_msg (my_name s) (my_id s)))
                   (List.filter (fun c' => c_alive c' && negb (c_fd c' =? s_fd s))
                                (clients st))
               ++ (if logf st then [EvLog (log_disconnect (my_name s) (my_id s))] else []))
              ++ [EvClose (c_fd c)])))
  /\ (cstr (strip_eol chunk) = lit "/list" ++ rest ->
     handle_line s chunk st
     = (Continue s, st, [EvSend (s_fd s) (list_users_text (clients st))]))
  /\ (cstr (strip_eol chunk) = lit "/name " ++ rest ->
     handle_line s chunk st = do_name s rest st)
  /\ (cstr (strip_eol chunk) = lit "/msg " ++ rest ->
     handle_line s chunk st = do_msg s rest st)
  /\ (cstr (strip_eol chunk) = lit "/name" ++ rest -> head rest <> Some SP ->
     handle_line s chunk st = (Continue s, st, [EvSend (s_fd s) unknown_msg]))
  /\ (cstr (strip_eol chunk) = lit "/msg" ++ rest -> head rest <> Some SP ->
     handle_line s chunk st = (Continue s, st, [EvSend (s_fd s) unknown_msg])).
Proof.
  split_and!.
  - intros H.
    assert (Hb : handle_line s chunk st = (Break, st, [])).
    { rewrite (handle_line_command s chunk _ H). reflexivity. }
    split; [exact Hb|]. split; [now apply client_serve_break|].
    intros c Hr Hl Ha Hname.
    rewrite (client_serve_break s chunk more st Hb).
    rewrite (client_disconnect_run s st c Hr Hl Ha).
    rewrite snprintf_fits, broadcast_events_filter; [reflexivity|].
    rewrite length_disconnected_msg. pose proof (length_fmt_d (my_id s)).
    unfold BUF_SIZE, NAME_LEN in *. lia.
  - intros H. rewrite (handle_line_command s chunk _ H).
    apply (do_command_list s rest).
  - intros H. rewrite (handle_line_command s chunk _ H).
    apply (do_command_name s rest).
  - intros H. rewrite (handle_line_command s chunk _ H).
    apply (do_command_msg s rest).
  - intros H Hsp. rewrite (handle_line_command s chunk _ H).
    now apply (do_command_name_nospace s rest).
  - intros H Hsp. rewrite (handle_line_command s chunk _ H).
    now apply (do_command_msg_nospace s rest).
Qed.

(** The lines [/quitnow], [/listing] and the bare [/name] and [/msg]:
    after [/quitnow] from the first of two sessions, the other one is told,
    the record is logged, handle 4 is closed and slot 0 is free, and the
    line [hello] that follows is not read. *)
Lemma command_dispatch_witness :
  (handle_line (session_of 0 two_clients) (lit "/quitnow" ++ [LF]) two_clients
   = (Break, two_clients, []))
  /\ (client_serve (session_of 0 two_clients)
        [lit "/quitnow" ++ [LF]; lit "hello" ++ [LF]] two_clients
      = (tt,
         set_clients (<[0%nat := mk_client 4 false 0 []]> (clients two_clients)) two_clients,
         [EvSend 5 (lit "[Server] Client-1 (ID:1) disconnected." ++ [LF]);
          EvLog (lit "DISCONNECT id=1 name=Client-1");
          EvClose 4]))
  /\ (handle_line (session_of 0 two_clients) (lit "/listing" ++ [LF]) two_clients
      = (Continue (session_of 0 two_clients), two_clients,
         [EvSend 4 (lit "=== Connected Users ===" ++ [LF]
                    ++ lit "ID:1  Client-1" ++ [LF]
                    ++ lit "ID:2  Client-2" ++ [LF]
                    ++ lit "=======================" ++ [LF])]))
  /\ (handle_line (session_of 0 two_clients) (lit "/name" ++ [LF]) two_clients
      = (Continue (session_of 0 two_clients), two_clients, [EvSend 4 unknown_msg]))
  /\ (handle_line (session_of 0 two_clients) (lit "/msg" ++ [CR; LF]) two_clients
      = (Continue (session_of 0 two_clients), two_clients, [EvSend 4 unknown_msg]))
  /\ (events_of (handle_line (session_of 0 two_clients) (lit "/name Al" ++ [LF]) two_clients)
      = [EvSend 4 (lit "[Server] ID 1 is now known as Al" ++ [LF]);
         EvSend 5 (lit "[Server] ID 1 is now known as Al" ++ [LF]);
         EvLog (lit "RENAME id=1 name=Al")])
  /\ (events_of (handle_line (session_of 0 two_clients) (lit "/msg 2 yo" ++ [LF]) two_clients)
      = [EvSend 5 (lit "[PM from Client-1 (ID:1)]: yo" ++ [LF]);
         EvSend 4 (lit "[PM sent]" ++ [LF]);
         EvLog (lit "PM from=1 to=2 text=yo")]).
Proof.
  split; [|split; [|split; [|split; [|split; [|split]]]]].
  - destruct (command_dispatch (session_of 0 two_clients) (lit "/quitnow" ++ [LF])
                (lit "now") [] two_clients) as (Hq & _).
    apply Hq; reflexivity.
  - destruct (command_dispatch (session_of 0 two_clients) (lit "/quitnow" ++ [LF])
                (lit "now") [lit "hello" ++ [LF]] two_clients) as (Hq & _).
    destruct (Hq eq_refl) as (_ & _ & Hserve).
    rewrite (Hserve (mk_client 4 true 1 (lit "Client-1"))).
    + vm_compute. reflexivity.
    + unfold MAX_CLIENTS; cbn; lia.
    + reflexivity.
    + reflexivity.
    + apply Nat.leb_le; vm_compute; reflexivity.
  - destruct (command_dispatch (session_of 0 two_clients) (lit "/listing" ++ [LF])
                (lit "ing") [] two_clients) as (_ & Hl & _).
    rewrite Hl; [|reflexivity]. vm_compute. reflexivity.
  - destruct (command_dispatch (session_of 0 two_clients) (lit "/name" ++ [LF])
                [] [] two_clients) as (_ & _ & _ & _ & Hn & _).
    apply Hn; [reflexivity | discriminate].
  - destruct (command_dispatch (session_of 0 two_clients) (lit "/msg" ++ [CR; LF])
                [] [] two_clients) as (_ & _ & _ & _ & _ & Hm).
    apply Hm; [reflexivity | discriminate].
  - destruct (command_dispatch (session_of 0 two_clients) (lit "/name Al" ++ [LF])
                (lit "Al") [] two_clients) as (_ & _ & Hn & _).
    rewrite Hn; [|reflexivity]. vm_compute. reflexivity.
  - destruct (command_dispatch (session_of 0 two_clients) (lit "/msg 2 yo" ++ [LF])
                (lit "2 yo") [] two_clients) as (_ & _ & _ & Hm & _).
    rewrite Hm; [|reflexivity]. vm_compute. reflexivity.
Defined.

(** ** Registration *)

Lemma find_free_from_full i cs :
  Forall (fun c => c_alive c = true) cs -> find_free_from i cs = -1.
Proof.
  intros H; revert i; induction H as [|c cs Hc _ IH]; intros i; simpl; [reflexivity|].
  rewrite Hc; apply IH.
Qed.

(** A slot returned by the scan is a slot of the table, and it is free. *)
Lemma find_free_from_found i cs :
  find_free_from i cs <> -1 -> 0 <= i ->
  exists c, i <= find_free_from i cs < i + Z.of_nat (length cs)
            /\ cs !! Z.to_nat (find_free_from i cs - i) = Some c
            /\ c_alive c = false.
Proof.
  revert i; induction cs as [|c cs IH]; intros i H Hi; simpl in *; [congruence|].
  destruct (c_alive c) eqn:E.
  - destruct (IH (i + 1) H ltac:(lia)) as (c' & Hr & Hl & Ha).
    exists c'; split; [lia|]; split; [|exact Ha].
    replace (Z.to_nat (find_free_from (i + 1) cs - i))
      with (S (Z.to_nat (find_free_from (i + 1) cs - (i + 1)))) by lia.
    exact Hl.
  - exists c; split; [lia|]; split; [|exact E].
    now replace (i - i) with 0 by lia.
Qed.

Lemma find_free_slot_range st :
  find_free_slot st = -1
  \/ (0 <= find_free_slot st
      /\ (Z.to_nat (find_free_slot st) < length (clients st))%nat).
Proof.
  unfold find_free_slot.
  destruct (Z.eq_dec (find_free_from 0 (clients st)) (-1)) as [E|E]; [now left|right].
  destruct (find_free_from_found 0 (clients st) E ltac:(lia)) as (c & Hr & _); lia.
Qed.

(** C4.  When every one of the [MAX_CLIENTS] slots is alive, [add_client]
    returns -1 and leaves the table and the id counter as they were; the
    accept loop then sends "Server full." to the new handle and closes
    it. *)
Theorem add_client_full fd st :
  length (clients st) = MAX_CLIENTS ->
  Forall (fun c => c_alive c = true) (clients st) ->
  add_client fd st = (-1, st, [])
  /\ accept_client fd st = (-1, st, [EvSend fd server_full_msg; EvClose fd]).
Proof.
  intros _ Hfull.
  assert (Ha : add_client fd st = (-1, st, [])).
  { unfold add_client, find_free_slot. now rewrite (find_free_from_full 0 _ Hfull). }
  split; [exact Ha|].
  unfold accept_client. rewrite bind_run, Ha. reflexivity.
Qed.

Lemma full_house_full :
  length (clients full_house) = MAX_CLIENTS
  /\ Forall (fun c => c_alive c = true) (clients full_house).
Proof.
  split; [vm_compute; reflexivity|].
  apply List.Forall_forall, (proj1 (List.forallb_forall c_alive _)).
  vm_compute; reflexivity.
Qed.

Lemma add_client_full_witness :
  add_client 200 full_house = (-1, full_house, [])
  /\ accept_client 200 full_house
     = (-1, full_house, [EvSend 200 server_full_msg; EvClose 200]).
Proof.
  apply (add_client_full 200 full_house); apply full_house_full.
Defined.

(** ** Ids *)

Lemma wrap64_succ n : 1 <= n -> n < INT64_MAX -> wrap64 (n + 1) = n + 1.
Proof.
  unfold wrap64, INT64_MAX; intros H1 H2.
  rewrite Z.mod_small; lia.
Qed.

(** A successful [add_client] hands out the current value of the counter
    and advances it by one; a failed one changes nothing. *)
Lemma add_client_id fd st :
  1 <= next_id st -> next_id st < INT64_MAX ->
  let r := add_client fd st in
  (result_of r = -1 /\ state_of r = st)
  \/ (0 <= result_of r
      /\ id_at (result_of r) (state_of r) = next_id st
      /\ next_id (state_of r) = next_id st + 1).
Proof.
  intros H1 H2; unfold add_client.
  destruct (find_free_slot_range st) as [E|[E L]].
  - left; rewrite E; simpl; auto.
  - right. destruct (0 <=? find_free_slot st) eqn:T; [|lia].
    unfold result_of, state_of, id_at; simpl.
    split; [exact E|]. split; [|now apply wrap64_succ].
    rewrite list_lookup_insert_eq by exact L. reflexivity.
Qed.

Lemma shutdown_server_next_id st : next_id (state_of (shutdown_server st)) = next_id st.
Proof.
  unfold shutdown_server, state_of.
  destruct (shutdown_clients (clients st)); reflexivity.
Qed.

Lemma remove_client_next_id slot st :
  next_id (state_of (remove_client slot st)) = next_id st.
Proof.
  unfold remove_client, state_of.
  destruct ((0 <=? slot) && (slot <? Z.of_nat MAX_CLIENTS)); [|reflexivity].
  destruct (clients st !! Z.to_nat slot) as [c|]; [|reflexivity].
  destruct (c_alive c); reflexivity.
Qed.

(** An operation that hands out no id. *)
Lemma then_none_run {A} (m : M A) st :
  (m;; mret (@None Z)) st = (None, state_of (m st), events_of (m st)).
Proof.
  rewrite bind_run. destruct (m st) as [[a st'] ev]; unfold_M; simpl.
  now rewrite app_nil_r.
Qed.

(** One operation: the counter never moves back, it moves by at most one,
    and an id handed out is the value the counter had. *)
Lemma exec_op_counter o st :
  1 <= next_id st -> next_id st < INT64_MAX ->
  let r := exec_op o st in
  match result_of r with
  | Some i => i = next_id st /\ next_id (state_of r) = next_id st + 1
  | None => next_id (state_of r) = next_id st
  end.
Proof.
  intros H1 H2; destruct o; cbn zeta; unfold exec_op;
    try (rewrite then_none_run; unfold result_of at 1; unfold state_of at 1; cbn beta iota).
  - pose proof (add_client_id fd st H1 H2) as Hadd; simpl in Hadd.
    rewrite !bind_run.
    destruct (add_client fd st) as [[slot st'] ev]; unfold_M; simpl in *.
    destruct Hadd as [[-> ->]|(Hs & Hid & Hn)]; simpl; [reflexivity|].
    destruct (slot <? 0) eqn:T; [lia|]. simpl; auto.
  - apply remove_client_next_id.
  - reflexivity.
  - reflexivity.
  - reflexivity.
  - reflexivity.
  - apply shutdown_server_next_id.
Qed.

Lemma assigned_ids_sorted ops : forall st,
  1 <= next_id st ->
  next_id st + Z.of_nat (length ops) <= INT64_MAX ->
  StronglySorted Z.lt (assigned_ids ops st)
  /\ Forall (fun i => next_id st <= i) (assigned_ids ops st).
Proof.
  induction ops as [|o ops IH]; intros st H1 H2; simpl.
  - split; constructor.
  - simpl length in H2.
    pose proof (exec_op_counter o st H1 ltac:(lia)) as Hc; simpl in Hc.
    destruct (result_of (exec_op o st)) as [i|].
    + destruct Hc as [-> Hn].
      destruct (IH (state_of (exec_op o st)) ltac:(lia) ltac:(lia)) as [Hs Hf].
      split.
      * constructor; [exact Hs|].
        eapply List.Forall_impl; [|exact Hf]. intros a Ha; simpl in Ha; lia.
      * constructor; [lia|].
        eapply List.Forall_impl; [|exact Hf]. intros a Ha; simpl in Ha; lia.
    + destruct (IH (state_of (exec_op o st)) ltac:(lia) ltac:(lia)) as [Hs Hf].
      split; [exact Hs|].
      eapply List.Forall_impl; [|exact Hf]. intros a Ha; simpl in Ha; lia.
Qed.

Lemma sorted_lt_NoDup (l : list Z) : StronglySorted Z.lt l -> NoDup l.
Proof.
  induction 1 as [|a l Hs IH Hf]; constructor; [|exact IH].
  intros Hin. rewrite Forall_forall in Hf. specialize (Hf a Hin). lia.
Qed.

(** C5.  Along any sequence of registry operations (registrations
    interleaved with unregistrations, renames, lookups, broadcasts,
    listings, shutdown) the ids handed out by the successful
    registrations are strictly increasing in order of registration, hence
    pairwise distinct, and none is below the value the counter had at the
    start: an id is not handed out twice, whatever was unregistered in
    between.  The sequence is assumed not to exhaust the 64-bit counter. *)
Theorem ids_unique_increasing ops st :
  1 <= next_id st ->
  next_id st + Z.of_nat (length ops) <= INT64_MAX ->
  StronglySorted Z.lt (assigned_ids ops st)
  /\ NoDup (assigned_ids ops st)
  /\ Forall (fun i => next_id st <= i) (assigned_ids ops st).
Proof.
  intros H1 H2.
  destruct (assigned_ids_sorted ops st H1 H2) as [Hs Hf].
  split; [exact Hs|]. split; [|exact Hf].
  now apply sorted_lt_NoDup.
Qed.

(** Three sessions join, the second leaves, a fourth joins: it takes the
    freed slot and a new id. *)
Lemma ids_unique_increasing_witness :
  assigned_ids [OpAdd 4; OpAdd 5; OpAdd 6; OpRemove 1; OpAdd 7] (init_state 3 true)
  = [1; 2; 3; 4]
  /\ StronglySorted Z.lt
       (assigned_ids [OpAdd 4; OpAdd 5; OpAdd 6; OpRemove 1; OpAdd 7] (init_state 3 true))
  /\ NoDup (assigned_ids [OpAdd 4; OpAdd 5; OpAdd 6; OpRemove 1; OpAdd 7] (init_state 3 true))
  /\ Forall (fun i => next_id (init_state 3 true) <= i)
       (assigned_ids [OpAdd 4; OpAdd 5; OpAdd 6; OpRemove 1; OpAdd 7] (init_state 3 true)).
Proof.
  split; [vm_compute; reflexivity|].
  apply (ids_unique_increasing
           [OpAdd 4; OpAdd 5; OpAdd 6; OpRemove 1; OpAdd 7] (init_state 3 true)).
  - simpl; lia.
  - vm_compute; discriminate.
Defined.

(** ** Shutdown *)

(** Every live session is notified once and its handle closed once, in
    slot order; nothing goes to a dead slot. *)
Lemma shutdown_clients_events cs :
  (shutdown_clients cs).2
  = flat_map (fun c => [EvSend (c_fd c) shutdown_notice; EvClose (c_fd c)])
             (List.filter c_alive cs).
Proof.
  induction cs as [|c cs IH]; simpl; [reflexivity|].
  destruct (shutdown_clients cs) as [cs' ev]; simpl in IH.
  destruct (c_alive c); simpl; now rewrite IH.
Qed.

Lemma shutdown_clients_dead cs :
  Forall (fun c => c_alive c = false) (shutdown_clients cs).1.
Proof.
  induction cs as [|c cs IH]; simpl; [constructor|].
  destruct (shutdown_clients cs) as [cs' ev]; simpl in IH.
  destruct (c_alive c) eqn:E; simpl; constructor; auto.
Qed.

Lemma filter_alive_dead cs :
  Forall (fun c => c_alive c = false) cs -> List.filter c_alive cs = [].
Proof.
  induction 1 as [|c cs Hc _ IH]; simpl; [reflexivity|]. now rewrite Hc.
Qed.

Lemma shutdown_clients_idle cs :
  Forall (fun c => c_alive c = false) cs -> shutdown_clients cs = (cs, []).
Proof.
  induction 1 as [|c cs Hc _ IH]; simpl; [reflexivity|]. now rewrite IH, Hc.
Qed.

Lemma shutdown_server_run st :
  shutdown_server st
  = (tt, set_clients (shutdown_clients (clients st)).1 st,
     (if listen_fd st =? -1 then [] else [EvClose (listen_fd st)])
     ++ (shutdown_clients (clients st)).2
     ++ (if logf st then [EvLog (lit "SERVER SHUTDOWN"); EvFclose] else [])).
Proof.
  unfold shutdown_server. destruct (shutdown_clients (clients st)); reflexivity.
Qed.

(** After [shutdown_server] no session is live. *)
Lemma shutdown_server_snapshot st :
  List.filter c_alive (clients (state_of (shutdown_server st))) = [].
Proof.
  unfold shutdown_server, state_of.
  pose proof (shutdown_clients_dead (clients st)) as H.
  destruct (shutdown_clients (clients st)) as [cs ev]; simpl in *.
  now apply filter_alive_dead.
Qed.

(** A second call leaves the table alone and reaches no session, but it
    closes the listening handle again and writes to and closes the log
    again: neither [listen_fd] nor [logf] is reset by the first call. *)
Lemma shutdown_server_again st :
  shutdown_server (state_of (shutdown_server st))
  = (tt, state_of (shutdown_server st),
     (if listen_fd st =? -1 then [] else [EvClose (listen_fd st)])
     ++ (if logf st then [EvLog (lit "SERVER SHUTDOWN"); EvFclose] else [])).
Proof.
  rewrite !shutdown_server_run; unfold state_of; cbn [fst snd].
  cbn [clients listen_fd logf set_clients].
  rewrite (shutdown_clients_idle _ (shutdown_clients_dead (clients st))).
  reflexivity.
Qed.

(** C2, at the state with two connected sessions.  The first call
    notifies each session once, closes both handles and the log, and
    leaves no live session; the second call closes handle 3 again, and
    writes a record to and closes the log file that the first call has
    already closed. *)
Theorem shutdown_server_twice :
  events_of (shutdown_server two_clients)
  = [EvClose 3;
     EvSend 4 shutdown_notice; EvClose 4;
     EvSend 5 shutdown_notice; EvClose 5;
     EvLog (lit "SERVER SHUTDOWN"); EvFclose]
  /\ List.filter c_alive (clients (state_of (shutdown_server two_clients))) = []
  /\ events_of (shutdown_server (state_of (shutdown_server two_clients)))
     = [EvClose 3; EvLog (lit "SERVER SHUTDOWN"); EvFclose].
Proof.
  split; [vm_compute; reflexivity|]. split; [apply shutdown_server_snapshot|].
  rewrite shutdown_server_again. reflexivity.
Qed.

(** ** Private messages *)

Lemma parse_digits_field l text acc :
  Forall (fun c => isdigit c = true) l ->
  parse_digits (l ++ SP :: text) acc = parse_digits l acc.
Proof.
  intros H; revert acc; induction H as [|c l Hc _ IH]; intros acc; simpl.
  - reflexivity.
  - rewrite Hc; apply IH.
Qed.

(** On a numeral followed by a space, [atoll] reads the numeral. *)
Lemma atoll_field idtok text :
  idtok <> [] -> Forall (fun c => isdigit c = true) idtok ->
  atoll (idtok ++ SP :: text) = atoll idtok.
Proof.
  intros Hne H; destruct idtok as [|d ds]; [congruence|].
  inversion H as [|? ? Hd Hds]; subst.
  destruct (isdigit_not_sign d Hd) as [Hm Hp].
  unfold atoll; simpl skip_spaces.
  rewrite (isdigit_not_space d Hd), Hm, Hp.
  change (d :: ds ++ SP :: text) with ((d :: ds) ++ SP :: text).
  now rewrite parse_digits_field.
Qed.

Lemma skip_field_app idtok text :
  Forall (fun c => c <> SP) idtok -> skip_field (idtok ++ SP :: text) = text.
Proof.
  induction 1 as [|c l Hc _ IH]; simpl; [reflexivity|].
  destruct (Ascii.eqb_spec c SP); [contradiction|exact IH].
Qed.

Lemma find_by_id_in_Some tid cs t :
  find_by_id_in tid cs = Some t -> t ∈ cs /\ c_alive t = true /\ c_id t = tid.
Proof.
  induction cs as [|c cs IH]; simpl; [discriminate|].
  destruct (c_alive c && (c_id c =? tid)) eqn:E.
  - intros [= ->]. apply andb_true_iff in E as [Ha Hi].
    split; [left|]. split; [exact Ha|lia].
  - intros H; destruct (IH H) as (Hin & Ha & Hi). split; [now right|auto].
Qed.

Lemma find_by_id_in_None tid cs :
  find_by_id_in tid cs = None <->
  (forall c, c ∈ cs -> c_alive c = true -> c_id c <> tid).
Proof.
  induction cs as [|c cs IH]; simpl.
  - split; [intros _ c Hc; inversion Hc|reflexivity].
  - destruct (c_alive c && (c_id c =? tid)) eqn:E.
    + split; [discriminate|]. intros H. exfalso.
      apply andb_true_iff in E as [Ha Hi].
      apply (H c); [left|exact Ha|lia].
    + rewrite IH; split.
      * intros H c' Hc' Ha. apply elem_of_cons in Hc' as [->|Hc']; [|now apply H].
        rewrite Ha in E; simpl in E. lia.
      * intros H c' Hc'. apply H. now right.
Qed.

Lemma do_msg_run s p st :
  do_msg s p st =
  match find_by_id_in (atoll p) (clients st) with
  | Some t =>
      (Continue s, st,
       [EvSend (c_fd t) (snprintf (BUF_SIZE + 64) (pm_msg (my_name s) (my_id s) (skip_field p)));
        EvSend (s_fd s) pm_sent_msg]
       ++ (if logf st then [EvLog (log_pm (my_id s) (c_id t) (skip_field p))] else []))
  | None => (Continue s, st, [EvSend (s_fd s) not_found_msg])
  end.
Proof.
  unfold do_msg; unfold_M; simpl.
  destruct (find_by_id_in (atoll p) (clients st)) as [t|]; simpl; [|reflexivity].
  destruct (logf st); reflexivity.
Qed.

Lemma length_pm_msg nm i text :
  length (pm_msg nm i text) = (19 + length nm + length (fmt_d i) + length text)%nat.
Proof. unfold pm_msg; rewrite !length_app; simpl; lia. Qed.

(** *** What a numeral denotes *)

Lemma digit_val_of_char c : isdigit c = true -> digit_val c = digit_of_char c.
Proof.
  destruct c as [[] [] [] [] [] [] [] []]; intros H;
    first [discriminate H | reflexivity].
Qed.

Lemma digit_of_char_range c : 0 <= digit_of_char c <= 9.
Proof. destruct c as [[] [] [] [] [] [] [] []]; cbn; lia. Qed.

Lemma numeral_value_nonneg l : 0 <= numeral_value l.
Proof.
  induction l as [|c l IH]; cbn [numeral_value]; [lia|].
  pose proof (digit_of_char_range c).
  assert (0 <= 10 ^ Z.of_nat (length l)) by (apply Z.pow_nonneg; lia). nia.
Qed.

(** The digit loop of [atoll] computes the positional value. *)
Lemma parse_digits_value l : forall acc,
  Forall (fun c => isdigit c = true) l ->
  parse_digits l acc = acc * 10 ^ Z.of_nat (length l) + numeral_value l.
Proof.
  induction l as [|c l IH]; intros acc H; cbn [parse_digits numeral_value length].
  - change (10 ^ Z.of_nat 0) with 1. lia.
  - inversion H as [|? ? Hc Hl]; subst. rewrite Hc, (IH _ Hl), (digit_val_of_char c Hc).
    rewrite Nat2Z.inj_succ, Z.pow_succ_r by lia. ring.
Qed.

(** On a numeral [atoll] returns the number it denotes, saturated at the
    largest 64-bit value. *)
Lemma atoll_numeral idtok :
  idtok <> [] -> Forall (fun c => isdigit c = true) idtok ->
  atoll idtok = Z.min (numeral_value idtok) INT64_MAX.
Proof.
  intros Hne H; destruct idtok as [|d ds]; [congruence|].
  inversion H as [|? ? Hd Hds]; subst.
  destruct (isdigit_not_sign d Hd) as [Hm Hp].
  unfold atoll. rewrite skip_spaces_nonspace by (now apply isdigit_not_space).
  rewrite Hm, Hp, (parse_digits_value (d :: ds) 0 H).
  pose proof (numeral_value_nonneg (d :: ds)).
  unfold clamp64, INT64_MIN, INT64_MAX. lia.
Qed.

(** The lookup returns the lowest live slot that holds the id. *)
Lemma find_by_id_in_first tid cs : forall i t,
  cs !! i = Some t -> c_alive t = true -> c_id t = tid ->
  (forall j cj, (j < i)%nat -> cs !! j = Some cj -> c_alive cj = true -> c_id cj <> tid) ->
  find_by_id_in tid cs = Some t.
Proof.
  induction cs as [|c cs IH]; intros i t Hl Ha Hid Hlow; [discriminate Hl|].
  cbn [find_by_id_in]. destruct i as [|i].
  - injection Hl as ->. rewrite Ha; cbn. destruct (c_id t =? tid) eqn:E; [reflexivity|lia].
  - destruct (c_alive c && (c_id c =? tid)) eqn:E.
    + exfalso. apply andb_true_iff in E as [E1 E2].
      apply (Hlow 0%nat c); [lia|reflexivity|exact E1|lia].
    + apply (IH i t Hl Ha Hid). intros j cj Hj Hlj.
      apply (Hlow (S j) cj); [lia|exact Hlj].
Qed.


(** The scenario of the specification: session 1 sends [/msg 3 hi]. *)
Example msg_scenario :
  handle_line (session_of 0 three_clients) (lit "/msg 3 hi" ++ [LF]) three_clients
  = (Continue (session_of 0 three_clients), three_clients,
     [EvSend 6 (lit "[PM from Client-1 (ID:1)]: hi" ++ [LF]);
      EvSend 4 (lit "[PM sent]" ++ [LF]);
      EvLog (lit "PM from=1 to=3 text=hi")]).
Proof. vm_compute; reflexivity. Qed.


(** ** Ids that are not numerals *)

Lemma parse_digits_no_digit l :
  match l with d :: _ => isdigit d | [] => false end = false ->
  parse_digits l 0 = 0.
Proof. destruct l as [|d l]; simpl; [reflexivity|]. now intros ->. Qed.

(** Without a digit after the optional white space and sign, [atoll]
    returns 0. *)
Lemma atoll_not_numeric p : starts_numeric p = false -> atoll p = 0.
Proof.
  unfold starts_numeric, atoll.
  destruct (skip_spaces p) as [|c r]; [reflexivity|].
  destruct (Ascii.eqb c "-") eqn:Em; simpl.
  - intros H. now rewrite (parse_digits_no_digit r H).
  - destruct (Ascii.eqb c "+") eqn:Ep; simpl.
    + intros H. now rewrite (parse_digits_no_digit r H).
    + intros H. now rewrite H.
Qed.

(** In a well-formed table no live session holds id 0. *)
Lemma wf_no_live_zero st :
  registry_wf st ->
  forall c, c ∈ clients st -> c_alive c = true -> c_id c <> 0.
Proof.
  intros Hwf c Hin Ha. pose proof (wf_live_ids st Hwf c Hin Ha). lia.
Qed.

(** C7 (as amended).  A [/msg] line whose id field shows no digit after
    optional white space and an optional sign has its id parsed as 0; as
    no live session holds id 0, the sender is told "User not found.",
    nothing else is sent, the table is unchanged and the session stays in
    its loop. *)
Theorem msg_malformed_id s chunk p st :
  cstr (strip_eol chunk) = lit "/msg " ++ p ->
  starts_numeric p = false ->
  (forall c, c ∈ clients st -> c_alive c = true -> c_id c <> 0) ->
  atoll p = 0
  /\ handle_line s chunk st = (Continue s, st, [EvSend (s_fd s) not_found_msg]).
Proof.
  intros H Hnum Hzero.
  pose proof (atoll_not_numeric p Hnum) as Ha.
  split; [exact Ha|].
  rewrite (handle_line_command s chunk _ H).
  etransitivity; [apply (do_command_msg s p)|].
  rewrite do_msg_run, Ha.
  now rewrite (proj2 (find_by_id_in_None 0 (clients st)) Hzero).
Qed.

Lemma msg_malformed_id_witness :
  atoll (lit "abc hi") = 0
  /\ handle_line (session_of 0 two_clients) (lit "/msg abc hi" ++ [LF]) two_clients
     = (Continue (session_of 0 two_clients), two_clients, [EvSend 4 not_found_msg]).
Proof.
  apply (msg_malformed_id (session_of 0 two_clients) (lit "/msg abc hi" ++ [LF])
           (lit "abc hi") two_clients).
  - reflexivity.
  - reflexivity.
  - intros c Hin Ha.
    apply list_elem_of_In in Hin.
    assert (H : forallb (fun c => negb (c_alive c) || negb (c_id c =? 0))
                        (clients two_clients) = true) by (vm_compute; reflexivity).
    rewrite List.forallb_forall in H. specialize (H c Hin).
    rewrite Ha in H; simpl in H. apply negb_true_iff in H. lia.
Defined.

(** C7 (as stated) fails: in [/msg +1 hi] the id field begins with [+],
    not with a digit, yet the id parses as 1 and the private message is
    delivered to session 1. *)
Lemma msg_malformed_id_counterexample :
  cstr (strip_eol (lit "/msg +1 hi" ++ [LF])) = lit "/msg " ++ lit "+1 hi"
  /\ isdigit "+" = false
  /\ atoll (lit "+1 hi") = 1
  /\ handle_line (session_of 1 two_clients) (lit "/msg +1 hi" ++ [LF]) two_clients
     = (Continue (session_of 1 two_clients), two_clients,
        [EvSend 4 (lit "[PM from Client-2 (ID:2)]: hi" ++ [LF]);
         EvSend 5 (lit "[PM sent]" ++ [LF]);
         EvLog (lit "PM from=2 to=1 text=hi")])
  /\ handle_line (session_of 1 two_clients) (lit "/msg +1 hi" ++ [LF]) two_clients
     <> (Continue (session_of 1 two_clients), two_clients, [EvSend 5 not_found_msg]).
Proof.
  split; [reflexivity|]. split; [reflexivity|]. split; [reflexivity|].
  split; [vm_compute; reflexivity|]. vm_compute; discriminate.
Qed.

(** ** Renaming *)

(** With no handle to leave out, a broadcast reaches every live session. *)
Lemma broadcast_events_all msg cs :
  (forall c, c ∈ cs -> c_alive c = true -> 0 <= c_fd c) ->
  broadcast_events msg (-1) cs
  = map (fun c => EvSend (c_fd c) msg) (List.filter c_alive cs).
Proof.
  induction cs as [|c cs IH]; intros H; simpl; [reflexivity|].
  rewrite IH by (intros c' Hc'; apply H; now right).
  destruct (c_alive c) eqn:Ha; simpl; [|reflexivity].
  pose proof (H c ltac:(left) Ha).
  destruct (c_fd c =? -1) eqn:E; [lia|reflexivity].
Qed.

(** Renaming a slot does not change who receives a broadcast. *)
Lemma broadcast_events_alter msg except_fd nm i cs :
  broadcast_events msg except_fd
    (alter (fun c => mk_client (c_fd c) (c_alive c) (c_id c) nm) i cs)
  = broadcast_events msg except_fd cs.
Proof.
  revert i; induction cs as [|c cs IH]; intros i; [reflexivity|].
  destruct i as [|i]; simpl; [reflexivity|].
  change (list_alter ?f i cs) with (alter f i cs). now rewrite IH.
Qed.

Lemma do_name_run s c newn st :
  let nm := firstn (NAME_LEN - 1) (c :: newn) in
  do_name s (c :: newn) st
  = (Continue (with_name s nm),
     set_clients (alter (fun c => mk_client (c_fd c) (c_alive c) (c_id c) nm)
                        (Z.to_nat (s_slot s)) (clients st)) st,
     broadcast_events (snprintf BUF_SIZE (renamed_msg nm (my_id s))) (-1) (clients st)
     ++ (if logf st then [EvLog (log_rename nm (my_id s))] else [])).
Proof.
  cbv zeta. unfold do_name, set_name; unfold_M.
  cbn [clients set_clients logf]. rewrite broadcast_events_alter.
  destruct (logf st); cbn [app]; now rewrite ?app_nil_r.
Qed.

Lemma length_renamed_msg nm i :
  length (renamed_msg nm i) = (30 + length (fmt_d i) + length nm)%nat.
Proof. unfold renamed_msg; rewrite !length_app; simpl; lia. Qed.

(** C8.  [/name <newName>] with a non-empty argument, sent by the live
    session of slot [s_slot s]: the name stored in the slot, and kept by
    the thread, is the first [NAME_LEN - 1 = 31] bytes of the argument,
    nothing is reported about the cut, and the rename notice is sent to
    every live session, the sender among them. *)
Theorem name_command s chunk newn st c :
  cstr (strip_eol chunk) = lit "/name " ++ newn ->
  newn <> [] ->
  clients st !! Z.to_nat (s_slot s) = Some c ->
  c_alive c = true ->
  c_fd c = s_fd s ->
  (forall c', c' ∈ clients st -> c_alive c' = true -> 0 <= c_fd c') ->
  let nm := firstn (NAME_LEN - 1) newn in
  let st' := set_clients
               (alter (fun c => mk_client (c_fd c) (c_alive c) (c_id c) nm)
                      (Z.to_nat (s_slot s)) (clients st)) st in
  let sent := map (fun c' => EvSend (c_fd c') (renamed_msg nm (my_id s)))
                  (List.filter c_alive (clients st)) in
  handle_line s chunk st
  = (Continue (with_name s nm), st',
     sent ++ (if logf st then [EvLog (log_rename nm (my_id s))] else []))
  /\ clients st' !! Z.to_nat (s_slot s) = Some (mk_client (c_fd c) true (c_id c) nm)
  /\ (length nm <= NAME_LEN - 1)%nat
  /\ (length newn <= NAME_LEN - 1 -> nm = newn)%nat
  /\ In (EvSend (s_fd s) (renamed_msg nm (my_id s))) sent.
Proof.
  intros H Hne Hslot Ha Hfd Hfds nm st' sent.
  destruct newn as [|a newn]; [congruence|].
  split; [|split; [|split; [|split]]].
  - rewrite (handle_line_command s chunk _ H).
    etransitivity; [apply (do_command_name s (a :: newn))|].
    rewrite do_name_run. fold nm. fold st'.
    rewrite snprintf_fits.
    + now rewrite (broadcast_events_all _ _ Hfds).
    + rewrite length_renamed_msg.
      pose proof (length_fmt_d (my_id s)).
      assert (length nm <= 31)%nat by (apply firstn_le_length).
      unfold BUF_SIZE; lia.
  - unfold st'; cbn [clients set_clients].
    rewrite list_lookup_alter, Hslot; simpl. rewrite Ha.
    now destruct (decide (Z.to_nat (s_slot s) = Z.to_nat (s_slot s))).
  - apply firstn_le_length.
  - intros Hl. apply firstn_all2. exact Hl.
  - unfold sent. apply in_map_iff. exists c. split; [now rewrite Hfd|].
    apply filter_In. split; [|exact Ha].
    apply list_elem_of_In, list_elem_of_lookup. eauto.
Qed.

(** Session 2 asks for a name of 36 bytes and is given its first 31. *)
Lemma name_command_witness :
  handle_line (session_of 1 three_clients)
    (lit "/name Bartholomew-the-Magnificent-of-Kent" ++ [LF]) three_clients
  = (Continue (with_name (session_of 1 three_clients)
                 (lit "Bartholomew-the-Magnificent-of-")),
     set_clients
       (alter (fun c => mk_client (c_fd c) (c_alive c) (c_id c)
                          (lit "Bartholomew-the-Magnificent-of-"))
              1%nat (clients three_clients)) three_clients,
     [EvSend 4 (lit "[Server] ID 2 is now known as Bartholomew-the-Magnificent-of-" ++ [LF]);
      EvSend 5 (lit "[Server] ID 2 is now known as Bartholomew-the-Magnificent-of-" ++ [LF]);
      EvSend 6 (lit "[Server] ID 2 is now known as Bartholomew-the-Magnificent-of-" ++ [LF]);
      EvLog (lit "RENAME id=2 name=Bartholomew-the-Magnificent-of-")]).
Proof.
  destruct (name_command (session_of 1 three_clients)
              (lit "/name Bartholomew-the-Magnificent-of-Kent" ++ [LF])
              (lit "Bartholomew-the-Magnificent-of-Kent")
              three_clients (mk_client 5 true 2 (lit "Client-2"))) as [Hrun _].
  - reflexivity.
  - discriminate.
  - reflexivity.
  - reflexivity.
  - reflexivity.
  - intros c Hin Ha.
    apply list_elem_of_In in Hin.
    assert (H : forallb (fun c => negb (c_alive c) || (0 <=? c_fd c))
                        (clients three_clients) = true) by (vm_compute; reflexivity).
    rewrite List.forallb_forall in H. specialize (H c Hin).
    rewrite Ha in H; simpl in H. lia.
  - exact Hrun.
Defined.

(** ** Listing *)

Lemma live_lines_cons c cs :
  live_lines (c :: cs)
  = if c_alive c then user_line c ++ live_lines cs else live_lines cs.
Proof. unfold live_lines; simpl. destruct (c_alive c); reflexivity. Qed.

Lemma length_user_line c :
  length (user_line c) = (6 + length (fmt_d (c_id c)) + length (c_name c))%nat.
Proof. unfold user_line; rewrite !length_app; simpl; lia. Qed.

(** A write at the end of the string that fits is an append. *)
Lemma snprintf_at_fits out s :
  (length out + length s < BUF_SIZE)%nat ->
  snprintf_at out (length out) s = (out ++ s, length (out ++ s)).
Proof.
  intros H; unfold snprintf_at.
  rewrite Nat.eqb_refl, firstn_all2 by lia.
  now rewrite length_app.
Qed.

(** While the whole listing leaves 64 bytes free, the loop visits every
    slot and appends the line of every live one. *)
Lemma list_users_loop_fits cs : forall out,
  (length out + length (live_lines cs) + 64 < BUF_SIZE)%nat ->
  list_users_loop cs out (length out)
  = (out ++ live_lines cs, length (out ++ live_lines cs)).
Proof.
  induction cs as [|c cs IH]; intros out H.
  - cbn [list_users_loop]. unfold live_lines; simpl. now rewrite app_nil_r.
  - cbn [list_users_loop]. rewrite live_lines_cons in *.
    assert (G : Nat.ltb (length out + 64) BUF_SIZE = true).
    { apply Nat.ltb_lt. destruct (c_alive c); rewrite ?length_app in H; lia. }
    rewrite G. destruct (c_alive c).
    + rewrite length_app in H.
      rewrite snprintf_at_fits by lia.
      rewrite IH by (rewrite length_app; lia).
      now rewrite <- app_assoc.
    + now apply IH.
Qed.

Lemma length_list_header : length list_header = 24%nat.
Proof. reflexivity. Qed.

Lemma length_list_footer : length list_footer = 24%nat.
Proof. reflexivity. Qed.

Lemma list_users_text_start cs :
  list_users_text cs
  = (let '(out1, pos1) := list_users_loop cs list_header (length list_header) in
     (snprintf_at out1 pos1 list_footer).1).
Proof.
  unfold list_users_text.
  replace (snprintf_at [] 0 list_header) with (list_header, length list_header);
    [reflexivity|].
  unfold snprintf_at. rewrite firstn_all2; [reflexivity|].
  rewrite length_list_header; unfold BUF_SIZE; lia.
Qed.

(** *** The shape of every listing

    Whatever the table holds, the loop of [list_users] writes the lines
    of the live sessions among the first [k] slots, for some [k], and
    stops there because fewer than 64 bytes are free or the table is
    exhausted; no write goes past the buffer. *)
Lemma length_user_line_le c :
  (length (c_name c) <= NAME_LEN - 1)%nat -> (length (user_line c) <= 57)%nat.
Proof.
  intros H. rewrite length_user_line.
  pose proof (length_fmt_d (c_id c)). unfold NAME_LEN in H. lia.
Qed.

Lemma list_users_loop_prefix cs : forall out,
  (forall c, c ∈ cs -> (length (c_name c) <= NAME_LEN - 1)%nat) ->
  (length out <= BUF_SIZE - 8)%nat ->
  exists k,
    list_users_loop cs out (length out)
    = (out ++ live_lines (take k cs), length (out ++ live_lines (take k cs)))
    /\ (length (out ++ live_lines (take k cs)) <= BUF_SIZE - 8)%nat
    /\ ((k < length cs)%nat ->
        (BUF_SIZE <= length (out ++ live_lines (take k cs)) + 64)%nat).
Proof.
  induction cs as [|c cs IH]; intros out Hnames Hout.
  - exists 0%nat. cbn [list_users_loop take length]. unfold live_lines; cbn.
    rewrite app_nil_r. split; [reflexivity|]. split; [exact Hout|lia].
  - cbn [list_users_loop].
    destruct (Nat.ltb (length out + 64) BUF_SIZE) eqn:G.
    + apply Nat.ltb_lt in G.
      assert (Hcs : forall x, x ∈ cs -> (length (c_name x) <= NAME_LEN - 1)%nat)
        by (intros x Hx; apply Hnames; now right).
      destruct (c_alive c) eqn:A.
      * pose proof (length_user_line_le c (Hnames c ltac:(left))) as Hline.
        rewrite snprintf_at_fits by lia.
        destruct (IH (out ++ user_line c) Hcs) as (k & Hk & Hb & Hstop).
        { rewrite length_app. unfold BUF_SIZE in *. lia. }
        exists (S k). cbn [take length]. rewrite live_lines_cons, A.
        rewrite app_assoc. split; [exact Hk|]. split; [exact Hb|].
        intros Hlt. apply Hstop. lia.
      * destruct (IH out Hcs Hout) as (k & Hk & Hb & Hstop).
        exists (S k). cbn [take length]. rewrite live_lines_cons, A.
        split; [exact Hk|]. split; [exact Hb|].
        intros Hlt. apply Hstop. lia.
    + apply Nat.ltb_ge in G.
      exists 0%nat. cbn [take]. unfold live_lines; cbn [List.filter map concat].
      rewrite app_nil_r. split; [reflexivity|]. split; [exact Hout|].
      intros _. exact G.
Qed.

Lemma list_users_text_shape cs :
  (forall c, c ∈ cs -> (length (c_name c) <= NAME_LEN - 1)%nat) ->
  exists k,
    list_users_text cs
    = list_header ++ live_lines (take k cs)
      ++ firstn (BUF_SIZE - length (list_header ++ live_lines (take k cs)) - 1)
                list_footer
    /\ (length (list_users_text cs) <= BUF_SIZE - 1)%nat
    /\ ((k < length cs)%nat ->
        (BUF_SIZE <= length (list_header ++ live_lines (take k cs)) + 64)%nat).
Proof.
  intros Hnames.
  destruct (list_users_loop_prefix cs list_header Hnames) as (k & Hk & Hb & Hstop).
  { rewrite length_list_header. unfold BUF_SIZE. lia. }
  exists k. rewrite list_users_text_start, Hk.
  unfold snprintf_at. rewrite Nat.eqb_refl. cbn [fst].
  split; [now rewrite <- app_assoc|]. split; [|exact Hstop].
  rewrite length_app, length_firstn. unfold BUF_SIZE in *. lia.
Qed.

(** *** Entries and lines *)

Lemma fmt_d_no_LF n : ~ In LF (fmt_d n).
Proof.
  assert (Hu : forall m, ~ In LF (fmt_u 19 m [])).
  { intros m Hin.
    pose proof (fmt_u_digits 19 m [] ltac:(constructor)) as Hd.
    rewrite List.Forall_forall in Hd. specialize (Hd LF Hin). discriminate Hd. }
  unfold fmt_d. destruct (n <? 0); [|apply Hu].
  intros [E|Hin]; [discriminate E|now apply (Hu (- n))].
Qed.

(** The entry of a session is one line, unless its name holds a line
    feed. *)
Lemma user_line_single c :
  ~ In LF (c_name c) ->
  exists body, user_line c = body ++ [LF] /\ ~ In LF body.
Proof.
  intros Hn. exists (lit "ID:" ++ fmt_d (c_id c) ++ lit "  " ++ c_name c).
  split; [unfold user_line; now rewrite <- !app_assoc|].
  intros Hin. apply in_app_or in Hin as [Hin|Hin].
  { cbn in Hin. intuition discriminate. }
  apply in_app_or in Hin as [Hin|Hin]; [now apply (fmt_d_no_LF (c_id c))|].
  apply in_app_or in Hin as [Hin|Hin]; [|now apply Hn].
  cbn in Hin. intuition discriminate.
Qed.

(** C3 (as amended).  [/list] sends one message, to the requester only:
    the header line, then the entries ["ID:<id>  <name>\n"] of the live
    sessions among the first [k] slots for some [k], in slot order and
    with no dead slot shown, then the footer line cut to the room left in
    the 4096-byte buffer.  The scan stops before the end of the table
    only at a slot reached with at most 64 bytes of the buffer free.
    When the header and the entries of all live sessions together are
    shorter than 4032 bytes, the message is the header, the entry of
    every live session, and the whole footer.  An entry is a single line
    whenever the name holds no line feed. *)
Theorem list_users_complete fd st :
  (forall c, c ∈ clients st -> (length (c_name c) <= NAME_LEN - 1)%nat) ->
  (exists k,
     list_users fd st
     = (tt, st,
        [EvSend fd
           (list_header ++ live_lines (take k (clients st))
            ++ firstn (BUF_SIZE
                       - length (list_header ++ live_lines (take k (clients st))) - 1)
                      list_footer)])
     /\ ((k < length (clients st))%nat ->
         (BUF_SIZE <= length (list_header ++ live_lines (take k (clients st))) + 64)%nat))
  /\ ((length list_header + length (live_lines (clients st)) + 64 < BUF_SIZE)%nat ->
      list_users fd st = (tt, st, [EvSend fd (full_listing (clients st))]))
  /\ full_listing (clients st)
     = list_header
       ++ concat (map user_line (List.filter c_alive (clients st)))
       ++ list_footer
  /\ (forall c, ~ In LF (c_name c) ->
      exists body, user_line c = body ++ [LF] /\ ~ In LF body).
Proof.
  intros Hnames. split; [|split; [|split]].
  - destruct (list_users_text_shape (clients st) Hnames) as (k & Hk & _ & Hstop).
    exists k. split; [|exact Hstop]. unfold list_users. now rewrite Hk.
  - intros H. unfold list_users. rewrite list_users_text_start.
    rewrite list_users_loop_fits by exact H.
    rewrite snprintf_at_fits.
    + cbn [fst]. unfold full_listing. now rewrite <- app_assoc.
    + rewrite length_app, length_list_footer. lia.
  - reflexivity.
  - apply user_line_single.
Qed.

(** The scenario of the specification: after [/name Bob] by session 2. *)
Lemma list_users_complete_witness :
  list_users 5 (state_of (set_name 1 (lit "Bob") three_clients))
  = (tt, state_of (set_name 1 (lit "Bob") three_clients),
     [EvSend 5 (lit "=== Connected Users ===" ++ [LF]
                ++ lit "ID:1  Client-1" ++ [LF]
                ++ lit "ID:2  Bob" ++ [LF]
                ++ lit "ID:3  Client-3" ++ [LF]
                ++ lit "=======================" ++ [LF])]).
Proof.
  destruct (list_users_complete 5 (state_of (set_name 1 (lit "Bob") three_clients)))
    as (_ & Hrun & Hfull & _).
  - intros c Hin. apply list_elem_of_In in Hin.
    assert (Hall : forallb (fun c => Nat.leb (length (c_name c)) (NAME_LEN - 1))
                     (clients (state_of (set_name 1 (lit "Bob") three_clients))) = true)
      by (vm_compute; reflexivity).
    rewrite List.forallb_forall in Hall. apply Nat.leb_le. now apply Hall.
  - rewrite Hrun, Hfull; [vm_compute; reflexivity|].
    apply Nat.ltb_lt; vm_compute; reflexivity.
Defined.

(** C3 (as stated) fails on the full table whose 128 sessions all carry a
    name of 31 bytes: the loop stops when fewer than 64 bytes are free,
    the message holds the header, 103 session lines and the footer, and
    the sessions of ids 104 to 128 are left out. *)
Lemma list_users_counterexample :
  live_count (clients crowded) = 128%nat
  /\ events_of (list_users 4 crowded) = [EvSend 4 (list_users_text (clients crowded))]
  /\ list_users_text (clients crowded) <> full_listing (clients crowded)
  /\ length (List.filter (Ascii.eqb LF) (list_users_text (clients crowded))) = 105%nat
  /\ list_users_text (clients crowded)
     = list_header ++ live_lines (firstn 103 (clients crowded)) ++ list_footer.
Proof.
  split; [vm_compute; reflexivity|]. split; [reflexivity|].
  split; [|split; vm_compute; reflexivity].
  intros E. apply (f_equal (@length ascii)) in E.
  vm_compute in E. discriminate E.
Qed.

(** A name may hold a line feed: after [/name x], a line feed and
    [ID:9  Eve] in one chunk from session 2, the listing of the three
    live sessions shows four session lines, one of them for an id that
    nobody holds. *)
Example list_users_forged_line :
  list_users_text
    (clients (state_of (handle_line (session_of 1 three_clients)
                          (lit "/name x" ++ [LF] ++ lit "ID:9  Eve" ++ [LF])
                          three_clients)))
  = lit "=== Connected Users ===" ++ [LF]
    ++ lit "ID:1  Client-1" ++ [LF]
    ++ lit "ID:2  x" ++ [LF]
    ++ lit "ID:9  Eve" ++ [LF]
    ++ lit "ID:3  Client-3" ++ [LF]
    ++ lit "=======================" ++ [LF].
Proof. vm_compute; reflexivity. Qed.

(** ** The registry invariant *)

Lemma elem_of_insert_inv (cs : list client_t) i c x :
  x ∈ <[i:=c]> cs -> x = c \/ x ∈ cs.
Proof.
  intros H. apply list_elem_of_lookup in H as [j Hj].
  apply list_lookup_insert_Some in Hj as [(_ & -> & _)|(_ & Hj)]; [now left|right].
  apply list_elem_of_lookup; eauto.
Qed.

Lemma alter_as_insert (f : client_t -> client_t) (cs : list client_t) i c :
  cs !! i = Some c -> alter f i cs = <[i:=f c]> cs.
Proof.
  intros H. apply list_eq; intros j.
  destruct (decide (i = j)) as [<-|Hne].
  - rewrite list_lookup_alter_eq, H.
    rewrite list_lookup_insert_eq; [reflexivity|].
    now apply lookup_lt_Some in H.
  - now rewrite list_lookup_alter_ne, list_lookup_insert_ne.
Qed.

Lemma live_count_le cs : (live_count cs <= length cs)%nat.
Proof. unfold live_count. apply filter_length_le. Qed.

(** Writing a slot keeps the ids unique when the record written is dead,
    or carries an id that no other live slot holds. *)
Lemma ids_unique_insert cs i c :
  ids_unique cs ->
  (c_alive c = true ->
   forall j cj, j <> i -> cs !! j = Some cj -> c_alive cj = true -> c_id cj <> c_id c) ->
  ids_unique (<[i:=c]> cs).
Proof.
  intros Hu Hnew a b ca cb Ha Hb Hla Hlb Hid.
  apply list_lookup_insert_Some in Ha as [(<- & <- & _)|(Hia & Ha)];
    apply list_lookup_insert_Some in Hb as [(Eb & <- & _)|(Hib & Hb)].
  - exact Eb.
  - exfalso. apply (Hnew Hla b cb); auto.
  - exfalso. subst b. apply (Hnew Hlb a ca); auto.
  - apply (Hu a b ca cb); auto.
Qed.

Lemma slots_reset_insert cs i c :
  slots_reset cs ->
  (c_alive c = false -> c_id c = 0 /\ c_name c = []) ->
  slots_reset (<[i:=c]> cs).
Proof.
  intros Hr Hc x Hx Hd.
  apply elem_of_insert_inv in Hx as [->|Hx]; auto.
Qed.

(** *** The state after each operation *)

Lemma add_client_state fd st :
  (result_of (add_client fd st) = -1 /\ state_of (add_client fd st) = st)
  \/ (exists c0,
        0 <= result_of (add_client fd st)
        /\ clients st !! Z.to_nat (result_of (add_client fd st)) = Some c0
        /\ c_alive c0 = false
        /\ state_of (add_client fd st)
           = mk_state
               (<[Z.to_nat (result_of (add_client fd st)) :=
                    mk_client fd true (next_id st)
                      (snprintf NAME_LEN (lit "Client-" ++ fmt_d (next_id st)))]>
                  (clients st))
               (wrap64 (next_id st + 1)) (listen_fd st) (logf st)).
Proof.
  unfold add_client, find_free_slot.
  destruct (Z.eq_dec (find_free_from 0 (clients st)) (-1)) as [E|E].
  - left. rewrite E; simpl; auto.
  - right.
    destruct (find_free_from_found 0 (clients st) E ltac:(lia)) as (c0 & Hr & Hl & Hd).
    rewrite Z.sub_0_r in Hl.
    destruct (0 <=? find_free_from 0 (clients st)) eqn:T; [|lia].
    exists c0; unfold result_of, state_of; cbn [fst snd].
    split; [lia|]. split; [exact Hl|]. split; [exact Hd|reflexivity].
Qed.

Lemma remove_client_state slot st :
  state_of (remove_client slot st) = st
  \/ (exists c,
        clients st !! Z.to_nat slot = Some c /\ c_alive c = true
        /\ state_of (remove_client slot st)
           = set_clients (<[Z.to_nat slot := mk_client (c_fd c) false 0 []]> (clients st)) st).
Proof.
  unfold remove_client.
  destruct ((0 <=? slot) && (slot <? Z.of_nat MAX_CLIENTS)); [|now left].
  destruct (clients st !! Z.to_nat slot) as [c|]; [|now left].
  destruct (c_alive c) eqn:Ha; [|now left].
  right; exists c; auto.
Qed.

Lemma set_name_state slot newn st c :
  clients st !! Z.to_nat slot = Some c ->
  state_of (set_name slot newn st)
  = set_clients
      (<[Z.to_nat slot := mk_client (c_fd c) (c_alive c) (c_id c)
                            (firstn (NAME_LEN - 1) newn)]> (clients st)) st.
Proof.
  intros H; unfold set_name, state_of; cbn [fst snd].
  now rewrite (alter_as_insert _ _ _ _ H).
Qed.

Lemma shutdown_clients_map cs : (shutdown_clients cs).1 = map kill cs.
Proof.
  induction cs as [|c cs IH]; simpl; [reflexivity|].
  destruct (shutdown_clients cs) as [cs' ev]; simpl in IH; subst cs'.
  destruct (c_alive c) eqn:E; simpl; [reflexivity|].
  f_equal. destruct c; simpl in *; now subst.
Qed.

Lemma shutdown_server_state st :
  state_of (shutdown_server st) = set_clients (map kill (clients st)) st.
Proof. now rewrite shutdown_server_run, <- shutdown_clients_map. Qed.

Lemma exec_op_state o st :
  state_of (exec_op o st)
  = match o with
    | OpAdd fd => state_of (add_client fd st)
    | OpRemove slot => state_of (remove_client slot st)
    | OpRename slot newn => state_of (set_name slot newn st)
    | OpShutdown => state_of (shutdown_server st)
    | _ => st
    end.
Proof.
  destruct o; unfold exec_op; try (rewrite then_none_run; reflexivity).
  rewrite !bind_run. destruct (add_client fd st) as [[slot st'] ev]; reflexivity.
Qed.

Lemma elem_of_map_kill x cs : x ∈ map kill cs -> exists y, y ∈ cs /\ x = kill y.
Proof.
  intros H. apply list_elem_of_In, in_map_iff in H as (y & <- & Hy).
  exists y; split; [now apply list_elem_of_In|reflexivity].
Qed.

(** *** Well-formedness is kept *)

Lemma add_client_wf fd st :
  registry_wf st -> 0 <= fd -> next_id st < INT64_MAX ->
  registry_wf (state_of (add_client fd st)).
Proof.
  intros Hwf Hfd Hnext.
  destruct (add_client_state fd st) as [[_ ->]|(c0 & _ & Hl & _ & ->)]; [exact Hwf|].
  destruct Hwf as [Hlen Hn Hids Hnames Hfds].
  pose proof (wrap64_succ (next_id st) ltac:(lia) Hnext) as Hw.
  constructor; cbn [clients next_id].
  - now rewrite length_insert.
  - rewrite Hw; lia.
  - intros x Hx Ha. rewrite Hw.
    apply elem_of_insert_inv in Hx as [->|Hx]; cbn [c_id]; [lia|].
    specialize (Hids x Hx Ha); lia.
  - intros x Hx.
    apply elem_of_insert_inv in Hx as [->|Hx]; cbn [c_name]; [|now apply Hnames].
    apply firstn_le_length.
  - intros x Hx Ha.
    apply elem_of_insert_inv in Hx as [->|Hx]; cbn [c_fd]; [exact Hfd|now apply Hfds].
Qed.

Lemma remove_client_wf slot st :
  registry_wf st -> registry_wf (state_of (remove_client slot st)).
Proof.
  intros Hwf.
  destruct (remove_client_state slot st) as [->|(c & Hl & Ha & ->)]; [exact Hwf|].
  destruct Hwf as [Hlen Hn Hids Hnames Hfds].
  constructor; cbn [clients next_id set_clients].
  - now rewrite length_insert.
  - exact Hn.
  - intros x Hx Hax.
    apply elem_of_insert_inv in Hx as [->|Hx]; [discriminate Hax|now apply Hids].
  - intros x Hx.
    apply elem_of_insert_inv in Hx as [->|Hx]; [cbn; lia|now apply Hnames].
  - intros x Hx Hax.
    apply elem_of_insert_inv in Hx as [->|Hx]; [discriminate Hax|now apply Hfds].
Qed.

Lemma set_name_wf slot newn st c :
  registry_wf st -> clients st !! Z.to_nat slot = Some c ->
  registry_wf (state_of (set_name slot newn st)).
Proof.
  intros Hwf Hl. rewrite (set_name_state slot newn st c Hl).
  destruct Hwf as [Hlen Hn Hids Hnames Hfds].
  pose proof (list_elem_of_lookup_2 _ _ _ Hl) as Hc.
  constructor; cbn [clients next_id set_clients].
  - now rewrite length_insert.
  - exact Hn.
  - intros x Hx Hax.
    apply elem_of_insert_inv in Hx as [->|Hx]; [|now apply Hids].
    cbn [c_id c_alive] in *. now apply (Hids c Hc).
  - intros x Hx.
    apply elem_of_insert_inv in Hx as [->|Hx]; [|now apply Hnames].
    apply firstn_le_length.
  - intros x Hx Hax.
    apply elem_of_insert_inv in Hx as [->|Hx]; [|now apply Hfds].
    cbn [c_fd c_alive] in *. now apply (Hfds c Hc).
Qed.

Lemma shutdown_server_wf st :
  registry_wf st -> registry_wf (state_of (shutdown_server st)).
Proof.
  intros [Hlen Hn Hids Hnames Hfds]. rewrite shutdown_server_state.
  constructor; cbn [clients next_id set_clients].
  - now rewrite length_map.
  - exact Hn.
  - intros x Hx Hax. apply elem_of_map_kill in Hx as (y & _ & ->). discriminate Hax.
  - intros x Hx. apply elem_of_map_kill in Hx as (y & Hy & ->).
    unfold kill; cbn [c_name]. now apply Hnames.
  - intros x Hx Hax. apply elem_of_map_kill in Hx as (y & _ & ->). discriminate Hax.
Qed.

Lemma exec_op_wf o st :
  registry_wf st -> op_pre o st -> registry_wf (state_of (exec_op o st)).
Proof.
  intros Hwf Hpre. rewrite exec_op_state. destruct o; try exact Hwf.
  - destruct Hpre; now apply add_client_wf.
  - now apply remove_client_wf.
  - destruct Hpre as (_ & c & Hl & _). now apply (set_name_wf slot newn st c).
  - now apply shutdown_server_wf.
Qed.

(** *** Live ids stay unique *)

Lemma exec_op_unique o st :
  registry_wf st -> ids_unique (clients st) -> op_pre o st ->
  ids_unique (clients (state_of (exec_op o st))).
Proof.
  intros Hwf Hu Hpre. rewrite exec_op_state. destruct o; try exact Hu.
  - destruct (add_client_state fd st) as [[_ ->]|(c0 & _ & Hl & _ & ->)]; [exact Hu|].
    cbn [clients]. apply ids_unique_insert; [exact Hu|].
    intros _ j cj _ Hj Ha; cbn [c_id].
    pose proof (wf_live_ids st Hwf cj (list_elem_of_lookup_2 _ _ _ Hj) Ha). lia.
  - destruct (remove_client_state slot st) as [->|(c & Hl & Ha & ->)]; [exact Hu|].
    cbn [clients set_clients]. apply ids_unique_insert; [exact Hu|].
    intros Hd; discriminate Hd.
  - destruct Hpre as (_ & c & Hl & Ha).
    rewrite (set_name_state slot newn st c Hl). cbn [clients set_clients].
    apply ids_unique_insert; [exact Hu|].
    intros _ j cj Hne Hj Haj; cbn [c_id]. intros Hid.
    apply Hne. apply (Hu j (Z.to_nat slot) cj c); auto.
  - rewrite shutdown_server_state; cbn [clients set_clients].
    intros i j ci cj Hi _ Hai _ _.
    apply list_elem_of_lookup_2, elem_of_map_kill in Hi as (y & _ & ->).
    discriminate Hai.
Qed.

(** *** Dead slots stay reset, shutdown apart *)

Lemma exec_op_reset o st :
  o <> OpShutdown -> slots_reset (clients st) -> op_pre o st ->
  slots_reset (clients (state_of (exec_op o st))).
Proof.
  intros Hns Hr Hpre. rewrite exec_op_state. destruct o; try exact Hr.
  - destruct (add_client_state fd st) as [[_ ->]|(c0 & _ & Hl & _ & ->)]; [exact Hr|].
    cbn [clients]. apply slots_reset_insert; [exact Hr|].
    intros Hd; discriminate Hd.
  - destruct (remove_client_state slot st) as [->|(c & Hl & Ha & ->)]; [exact Hr|].
    cbn [clients set_clients]. apply slots_reset_insert; [exact Hr|].
    intros _; split; reflexivity.
  - destruct Hpre as (_ & c & Hl & Ha).
    rewrite (set_name_state slot newn st c Hl). cbn [clients set_clients].
    apply slots_reset_insert; [exact Hr|].
    cbn [c_alive]. rewrite Ha. intros Hd; discriminate Hd.
  - congruence.
Qed.

(** *** A slot that is taken again is rewritten as a whole *)

Lemma add_client_slot fd st :
  0 <= result_of (add_client fd st) ->
  clients (state_of (add_client fd st)) !! Z.to_nat (result_of (add_client fd st))
  = Some (mk_client fd true (next_id st) (lit "Client-" ++ fmt_d (next_id st))).
Proof.
  intros Hs.
  destruct (add_client_state fd st) as [[E _]|(c0 & _ & Hl & _ & ->)]; [lia|].
  cbn [clients]. rewrite list_lookup_insert_eq by (now apply lookup_lt_Some in Hl).
  rewrite snprintf_fits; [reflexivity|].
  rewrite length_app. pose proof (length_fmt_d (next_id st)).
  change (length (lit "Client-")) with 7%nat. unfold NAME_LEN. lia.
Qed.

Lemma registry_wf_live_bound st :
  registry_wf st -> (live_count (clients st) <= MAX_CLIENTS)%nat.
Proof.
  intros Hwf. rewrite <- (wf_length st Hwf). apply live_count_le.
Qed.

(** *** The start, and the sample states *)

Lemma init_state_wf lfd lg : registry_wf (init_state lfd lg).
Proof.
  assert (Hz : forall c, c ∈ clients (init_state lfd lg) -> c = zero_client).
  { intros c Hc. now apply elem_of_replicate in Hc as [-> _]. }
  constructor; cbn [next_id init_state].
  - apply length_replicate.
  - unfold INT64_MAX; lia.
  - intros c Hc Ha. rewrite (Hz c Hc) in Ha. discriminate Ha.
  - intros c Hc. rewrite (Hz c Hc). cbn; lia.
  - intros c Hc Ha. rewrite (Hz c Hc) in Ha. discriminate Ha.
Qed.

Lemma init_state_invariant lfd lg : state_invariant (init_state lfd lg).
Proof.
  assert (Hz : forall c, c ∈ clients (init_state lfd lg) -> c = zero_client).
  { intros c Hc. now apply elem_of_replicate in Hc as [-> _]. }
  split; [apply registry_wf_live_bound, init_state_wf|]. split.
  - intros i j ci cj Hi _ Hai _ _.
    rewrite (Hz ci (list_elem_of_lookup_2 _ _ _ Hi)) in Hai. discriminate Hai.
  - intros c Hc _. rewrite (Hz c Hc). split; reflexivity.
Qed.

Lemma two_clients_ops :
  two_clients
  = state_of (exec_op (OpAdd 5) (state_of (exec_op (OpAdd 4) (init_state 3 true)))).
Proof. vm_compute; reflexivity. Qed.

Lemma two_clients_wf : registry_wf two_clients.
Proof.
  rewrite two_clients_ops.
  apply exec_op_wf; [apply exec_op_wf; [apply init_state_wf|]|];
    split; [lia | vm_compute; reflexivity | lia | vm_compute; reflexivity].
Qed.

Lemma two_clients_invariant : state_invariant two_clients.
Proof.
  pose proof (init_state_wf 3 true) as W0.
  destruct (init_state_invariant 3 true) as (_ & U0 & R0).
  assert (P0 : op_pre (OpAdd 4) (init_state 3 true))
    by (split; [lia | vm_compute; reflexivity]).
  pose proof (exec_op_wf _ _ W0 P0) as W1.
  pose proof (exec_op_unique _ _ W0 U0 P0) as U1.
  pose proof (exec_op_reset (OpAdd 4) _ ltac:(discriminate) R0 P0) as R1.
  assert (P1 : op_pre (OpAdd 5) (state_of (exec_op (OpAdd 4) (init_state 3 true))))
    by (split; [lia | vm_compute; reflexivity]).
  rewrite two_clients_ops.
  split; [apply registry_wf_live_bound, exec_op_wf; assumption|]. split.
  - now apply exec_op_unique.
  - now apply exec_op_reset.
Qed.

(** X21.  From a well-formed table on which the invariant holds (at most
    128 live sessions, ids unique among live sessions, every dead slot
    with id 0 and an empty name), and for an operation called as the
    program calls it: every operation keeps the table well formed, the
    bound on live sessions and the uniqueness of live ids; every
    operation other than shutdown keeps the whole invariant; and a
    registration that finds a slot rewrites its handle, id and name, so
    a slot taken again shows nothing of its previous occupant. *)
Theorem registry_invariant_kept o st :
  registry_wf st -> state_invariant st -> op_pre o st ->
  let st' := state_of (exec_op o st) in
  registry_wf st'
  /\ (live_count (clients st') <= MAX_CLIENTS)%nat
  /\ ids_unique (clients st')
  /\ (o <> OpShutdown -> state_invariant st')
  /\ (forall fd, o = OpAdd fd -> 0 <= result_of (add_client fd st) ->
      clients st' !! Z.to_nat (result_of (add_client fd st))
      = Some (mk_client fd true (next_id st) (lit "Client-" ++ fmt_d (next_id st)))).
Proof.
  intros Hwf (Hb & Hu & Hr) Hpre st'.
  pose proof (exec_op_wf o st Hwf Hpre) as Hwf'.
  pose proof (exec_op_unique o st Hwf Hu Hpre) as Hu'.
  split; [exact Hwf'|]. split; [now apply registry_wf_live_bound|].
  split; [exact Hu'|]. split.
  - intros Hns. split; [now apply registry_wf_live_bound|].
    split; [exact Hu'|]. now apply exec_op_reset.
  - intros fd -> Hs. unfold st'. rewrite exec_op_state. now apply add_client_slot.
Qed.

(** A third session registers next to the two of [two_clients]. *)
Lemma registry_invariant_kept_witness :
  registry_wf (state_of (exec_op (OpAdd 6) two_clients))
  /\ state_invariant (state_of (exec_op (OpAdd 6) two_clients))
  /\ clients (state_of (exec_op (OpAdd 6) two_clients)) !! 2%nat
     = Some (mk_client 6 true 3 (lit "Client-3")).
Proof.
  destruct (registry_invariant_kept (OpAdd 6) two_clients)
    as (Hwf & _ & _ & Hinv & Hslot).
  - apply two_clients_wf.
  - apply two_clients_invariant.
  - split; [lia | vm_compute; reflexivity].
  - split; [exact Hwf|]. split; [apply Hinv; discriminate|].
    apply (Hslot 6 eq_refl). vm_compute; discriminate.
Defined.

(** C9, at the state with two connected sessions.  The invariant holds
    before the call.  [remove_client] on slot 0 leaves it dead with id 0
    and an empty name, as the invariant asks of a dead slot; after
    [shutdown_server] slot 0 is dead but still holds id 1 and the name
    [Client-1], so the invariant is false: the loop of [shutdown_server]
    clears [alive] without the reset that [remove_client] performs. *)
Theorem shutdown_server_leaves_stale_slots :
  registry_wf two_clients
  /\ state_invariant two_clients
  /\ clients (state_of (exec_op (OpRemove 0) two_clients)) !! 0%nat
     = Some (mk_client 4 false 0 [])
  /\ state_invariant (state_of (exec_op (OpRemove 0) two_clients))
  /\ clients (state_of (exec_op OpShutdown two_clients)) !! 0%nat
     = Some (mk_client 4 false 1 (lit "Client-1"))
  /\ ~ state_invariant (state_of (exec_op OpShutdown two_clients)).
Proof.
  assert (Hl : clients (state_of (exec_op OpShutdown two_clients)) !! 0%nat
               = Some (mk_client 4 false 1 (lit "Client-1")))
    by (vm_compute; reflexivity).
  pose proof two_clients_wf as Hwf.
  pose proof two_clients_invariant as (Hb & Hu & Hr).
  split; [exact Hwf|]. split; [exact (conj Hb (conj Hu Hr))|].
  split; [vm_compute; reflexivity|]. split; [|split; [exact Hl|]].
  - split; [apply registry_wf_live_bound; now apply exec_op_wf|].
    split; [now apply exec_op_unique|].
    apply exec_op_reset; [discriminate|exact Hr|exact I].
  - intros (_ & _ & Hr').
    destruct (Hr' _ (list_elem_of_lookup_2 _ _ _ Hl) eq_refl) as [Hid _].
    discriminate Hid.
Qed.

(** * Further properties of the code *)

(** ** Line ends *)

Lemma strip_eol_cons c l :
  strip_eol (c :: l)
  = match strip_eol l with
    | [] => if is_eol c then [] else [c]
    | r => c :: r
    end.
Proof. reflexivity. Qed.

(** A byte that is not a line end is always kept. *)
Lemma strip_eol_cons_keep c l :
  is_eol c = false -> strip_eol (c :: l) = c :: strip_eol l.
Proof.
  intros H. rewrite strip_eol_cons. destruct (strip_eol l); [now rewrite H|reflexivity].
Qed.

(** X1.  The stripping loop removes exactly the longest run of [\n] and
    [\r] bytes at the end of the chunk: the chunk is the result followed by
    line ends only, and the result does not end in a line end. *)
Theorem strip_eol_spec l :
  exists e,
    l = strip_eol l ++ e
    /\ all_eol e
    /\ (forall r c, strip_eol l = r ++ [c] -> is_eol c = false).
Proof.
  induction l as [|c l (e & Hl & He & Hlast)].
  - exists []. split; [reflexivity|]. split; [constructor|].
    intros r c H. destruct r; discriminate H.
  - rewrite strip_eol_cons. destruct (strip_eol l) as [|x r'] eqn:E.
    + destruct (is_eol c) eqn:Hc.
      * exists (c :: e). split; [simpl in *; now rewrite <- Hl|].
        split; [now constructor|]. intros r c0 H. destruct r; discriminate H.
      * exists e. split; [simpl in *; now rewrite <- Hl|]. split; [exact He|].
        intros r c0 H. destruct r as [|y r]; [now injection H as <-|].
        destruct r; discriminate H.
    + exists e. split; [simpl in *; now rewrite <- Hl|]. split; [exact He|].
      intros r c0 H. destruct r as [|y r]; [discriminate H|].
      injection H as _ H. now apply (Hlast r c0).
Qed.

Lemma strip_eol_spec_witness :
  strip_eol (lit "hi" ++ [CR; LF]) = lit "hi" /\ is_eol "i"%char = false.
Proof.
  split; [reflexivity|].
  destruct (strip_eol_spec (lit "hi" ++ [CR; LF])) as (e & _ & _ & Hlast).
  apply (Hlast (lit "h") "i"%char). reflexivity.
Defined.

(** ** Broadcast *)


Lemma broadcast_events_not_to msg except_fd cs m :
  ~ In (EvSend except_fd m) (broadcast_events msg except_fd cs).
Proof.
  rewrite broadcast_events_filter. intros H.
  apply in_map_iff in H as (c & Hc & Hin).
  apply filter_In in Hin as [_ Hf]. injection Hc as Hfd _.
  apply andb_true_iff in Hf as [_ Hf]. apply negb_true_iff in Hf. lia.
Qed.

(** X2.  [broadcast_except(msg, except_fd)] sends [msg] once to every live
    session whose handle differs from [except_fd], in slot order, sends
    nothing to [except_fd] and nothing to a dead slot, and leaves the
    table as it is. *)
Theorem broadcast_except_recipients msg except_fd st :
  broadcast_except msg except_fd st
  = (tt, st,
     map (fun c => EvSend (c_fd c) msg)
         (List.filter (fun c => c_alive c && negb (c_fd c =? except_fd)) (clients st)))
  /\ (forall m, ~ In (EvSend except_fd m) (events_of (broadcast_except msg except_fd st)))
  /\ (forall c, c ∈ clients st -> c_alive c = true -> c_fd c <> except_fd ->
      In (EvSend (c_fd c) msg) (events_of (broadcast_except msg except_fd st))).
Proof.
  unfold broadcast_except, events_of; cbn [snd].
  split; [now rewrite broadcast_events_filter|]. split.
  - intros m. apply broadcast_events_not_to.
  - intros c Hc Ha Hfd. rewrite broadcast_events_filter.
    apply in_map_iff. exists c. split; [reflexivity|].
    apply filter_In. split; [now apply list_elem_of_In|].
    rewrite Ha; simpl. apply negb_true_iff. lia.
Qed.

Lemma broadcast_except_recipients_witness :
  In (EvSend 5 (lit "news")) (events_of (broadcast_except (lit "news") 4 two_clients))
  /\ ~ In (EvSend 4 (lit "news")) (events_of (broadcast_except (lit "news") 4 two_clients)).
Proof.
  destruct (broadcast_except_recipients (lit "news") 4 two_clients) as (_ & Hnot & Hin).
  split; [|apply Hnot].
  apply (Hin (mk_client 5 true 2 (lit "Client-2"))).
  - apply list_elem_of_lookup. exists 1%nat. reflexivity.
  - reflexivity.
  - cbn; lia.
Defined.

(** ** Public messages *)

Lemma length_chat_msg nm i text :
  length (chat_msg nm i text) = (9 + length nm + length (fmt_d i) + length text)%nat.
Proof. unfold chat_msg; rewrite !length_app; simpl; lia. Qed.

(** X3.  A received line that is not empty and does not start with [/] is
    a public message: the line ["<name> (ID:<id>): <text>\n"] goes to
    every live session on another handle and never to the sender's
    handle, a log record is written, the table is unchanged and the
    session stays in its loop.  The text is the line up to its first NUL
    byte, so a chunk that starts with a NUL byte is relayed as an empty
    message. *)
Theorem chat_message s chunk st :
  strip_eol chunk <> [] ->
  head (cstr (strip_eol chunk)) <> Some "/"%char ->
  (length chunk <= BUF_SIZE - 1)%nat ->
  (length (my_name s) <= NAME_LEN - 1)%nat ->
  let text := cstr (strip_eol chunk) in
  let line := chat_msg (my_name s) (my_id s) text in
  handle_line s chunk st
  = (Continue s, st,
     map (fun c => EvSend (c_fd c) line)
         (List.filter (fun c => c_alive c && negb (c_fd c =? s_fd s)) (clients st))
     ++ (if logf st then [EvLog (log_msg (my_name s) (my_id s) text)] else []))
  /\ (forall m, ~ In (EvSend (s_fd s) m) (events_of (handle_line s chunk st))).
Proof.
  intros Hne Hhead Hlen Hname text line.
  assert (Hfit : snprintf (BUF_SIZE + 64) line = line).
  { apply snprintf_fits. unfold line. rewrite length_chat_msg.
    pose proof (length_received chunk). pose proof (length_fmt_d (my_id s)).
    fold text in H. unfold BUF_SIZE, NAME_LEN in *. lia. }
  assert (Hrun : handle_line s chunk st
                 = (Continue s, st,
                    broadcast_events line (s_fd s) (clients st)
                    ++ (if logf st then [EvLog (log_msg (my_name s) (my_id s) text)]
                        else []))).
  { unfold handle_line.
    assert (Hn : Nat.eqb (length (strip_eol chunk)) 0 = false).
    { destruct (strip_eol chunk); [congruence|reflexivity]. }
    cbv zeta. rewrite Hn. fold text.
    assert (Hchat : forall b : list ascii, head b <> Some "/"%char ->
              match b with
              | "/"%char :: _ => do_command s b
              | _ =>
                  broadcast_except (snprintf (BUF_SIZE + 64)
                                      (chat_msg (my_name s) (my_id s) b)) (s_fd s);;
                  log_event (log_msg (my_name s) (my_id s) b);;
                  mret (Continue s)
              end
              = (broadcast_except (snprintf (BUF_SIZE + 64)
                                     (chat_msg (my_name s) (my_id s) b)) (s_fd s);;
                 log_event (log_msg (my_name s) (my_id s) b);;
                 mret (Continue s))).
    { intros b Hb. destruct b as [|x b]; [reflexivity|].
      destruct (Ascii.eqb_spec x "/"%char) as [->|Hx]; [now elim Hb|].
      destruct x as [[] [] [] [] [] [] [] []]; try reflexivity. now elim Hx. }
    rewrite (Hchat text Hhead). fold line. rewrite Hfit.
    unfold_M. destruct (logf st); cbn; now rewrite ?app_nil_r. }
  split.
  - rewrite Hrun. now rewrite broadcast_events_filter.
  - intros m. rewrite Hrun. unfold events_of; cbn [snd]. intros Hin.
    apply in_app_or in Hin as [Hin|Hin].
    + now apply broadcast_events_not_to in Hin.
    + destruct (logf st); [destruct Hin as [Hin|[]]; discriminate Hin|destruct Hin].
Qed.

Lemma chat_message_witness :
  handle_line (session_of 0 three_clients) (lit "hello" ++ [LF]) three_clients
  = (Continue (session_of 0 three_clients), three_clients,
     [EvSend 5 (lit "Client-1 (ID:1): hello" ++ [LF]);
      EvSend 6 (lit "Client-1 (ID:1): hello" ++ [LF]);
      EvLog (lit "MSG id=1 name=Client-1 text=hello")]).
Proof.
  destruct (chat_message (session_of 0 three_clients) (lit "hello" ++ [LF])
              three_clients) as [Hrun _].
  - discriminate.
  - discriminate.
  - apply Nat.leb_le; vm_compute; reflexivity.
  - apply Nat.leb_le; vm_compute; reflexivity.
  - rewrite Hrun. vm_compute. reflexivity.
Defined.

(** ** Registration and removal *)

Lemma find_free_from_none i cs :
  0 <= i -> find_free_from i cs = -1 -> Forall (fun c => c_alive c = true) cs.
Proof.
  revert i; induction cs as [|c cs IH]; intros i Hi H; [constructor|].
  simpl in H. destruct (c_alive c) eqn:E; [|lia].
  constructor; [exact E|]. apply (IH (i + 1)); [lia|exact H].
Qed.

(** Every slot before the one returned by the scan is alive. *)
Lemma find_free_from_lowest i cs j c :
  0 <= i -> find_free_from i cs <> -1 ->
  (Z.of_nat j < find_free_from i cs - i) -> cs !! j = Some c -> c_alive c = true.
Proof.
  revert i j; induction cs as [|x cs IH]; intros i j Hi Hne Hj Hl; [discriminate Hl|].
  simpl in *. destruct (c_alive x) eqn:E; [|lia].
  destruct j as [|j]; [now injection Hl as <-|].
  apply (IH (i + 1) j); [lia|exact Hne|lia|exact Hl].
Qed.

Lemma live_count_insert cs i c0 c :
  cs !! i = Some c0 ->
  (live_count (<[i:=c]> cs) + (if c_alive c0 then 1 else 0)
   = live_count cs + (if c_alive c then 1 else 0))%nat.
Proof.
  unfold live_count. revert i; induction cs as [|x cs IH]; intros i H; [discriminate H|].
  destruct i as [|i]; simpl in *.
  - injection H as ->. destruct (c_alive c0), (c_alive c); simpl; lia.
  - specialize (IH i H). destruct (c_alive x); simpl; lia.
Qed.

(** Writing a dead record over a dead slot changes no live session. *)
Lemma filter_alive_insert_dead cs i c0 c :
  cs !! i = Some c0 -> c_alive c0 = false -> c_alive c = false ->
  List.filter c_alive (<[i:=c]> cs) = List.filter c_alive cs.
Proof.
  revert i; induction cs as [|x cs IH]; intros i H H0 Hc; [discriminate H|].
  destruct i as [|i]; simpl in *.
  - injection H as ->. now rewrite H0, Hc.
  - now rewrite (IH i H H0 Hc).
Qed.

(** X4.  Whenever some slot is free, [add_client] succeeds without any
    outside effect: it takes the lowest free slot (every slot below it is
    alive), and the number of live sessions grows by one. *)
Theorem add_client_lowest_free fd st :
  (exists c, c ∈ clients st /\ c_alive c = false) ->
  let slot := result_of (add_client fd st) in
  let st' := state_of (add_client fd st) in
  0 <= slot
  /\ (exists c0, clients st !! Z.to_nat slot = Some c0 /\ c_alive c0 = false)
  /\ (forall j c, (j < Z.to_nat slot)%nat -> clients st !! j = Some c -> c_alive c = true)
  /\ live_count (clients st') = S (live_count (clients st))
  /\ events_of (add_client fd st) = [].
Proof.
  intros (d & Hd & Hdead) slot st'.
  assert (Hne : find_free_from 0 (clients st) <> -1).
  { intros E. pose proof (find_free_from_none 0 _ ltac:(lia) E) as Hall.
    rewrite Forall_forall in Hall. specialize (Hall d Hd). congruence. }
  assert (Hslot : slot = find_free_from 0 (clients st)).
  { unfold slot, add_client, find_free_slot.
    destruct (0 <=? find_free_from 0 (clients st)); reflexivity. }
  destruct (add_client_state fd st) as [[E _]|(c0 & Hs & Hl & H0 & Hst)].
  { fold slot in E. congruence. }
  fold slot in Hs, Hl, Hst. fold st' in Hst.
  split; [exact Hs|]. split; [now exists c0|]. split; [|split].
  - intros j c Hj Hc.
    apply (find_free_from_lowest 0 (clients st) j c); [lia|exact Hne| |exact Hc].
    rewrite <- Hslot. lia.
  - rewrite Hst; cbn [clients].
    pose proof (live_count_insert (clients st) (Z.to_nat slot) c0
                  (mk_client fd true (next_id st)
                     (snprintf NAME_LEN (lit "Client-" ++ fmt_d (next_id st)))) Hl) as H.
    rewrite H0 in H; cbn [c_alive] in H. lia.
  - unfold add_client, events_of.
    destruct (0 <=? find_free_slot st); reflexivity.
Qed.

(** After one session has left the middle slot, the next registration
    takes that slot again. *)
Lemma add_client_lowest_free_witness :
  result_of (add_client 9 (state_of (remove_client 1 three_clients))) = 1
  /\ live_count (clients (state_of (add_client 9 (state_of (remove_client 1 three_clients)))))
     = 3%nat.
Proof.
  destruct (add_client_lowest_free 9 (state_of (remove_client 1 three_clients)))
    as (Hs & (c0 & Hl & H0) & Hlow & Hcount & _).
  - exists (mk_client 5 false 0 []). split; [|reflexivity].
    apply list_elem_of_lookup. exists 1%nat. reflexivity.
  - split; [vm_compute; reflexivity|]. rewrite Hcount. vm_compute; reflexivity.
Defined.

Lemma remove_client_dead slot st c :
  clients st !! Z.to_nat slot = Some c -> c_alive c = false ->
  remove_client slot st = (tt, st, []).
Proof.
  intros L A. unfold remove_client.
  destruct ((0 <=? slot) && (slot <? Z.of_nat MAX_CLIENTS)); [|reflexivity].
  now rewrite L, A.
Qed.


Lemma remove_client_outside slot st :
  ~ (0 <= slot < Z.of_nat MAX_CLIENTS) -> remove_client slot st = (tt, st, []).
Proof.
  intros Hout. unfold remove_client.
  destruct ((0 <=? slot) && (slot <? Z.of_nat MAX_CLIENTS)) eqn:G; [|reflexivity].
  apply andb_true_iff in G as [G1 G2]. lia.
Qed.

Lemma remove_client_missing slot st :
  clients st !! Z.to_nat slot = None -> remove_client slot st = (tt, st, []).
Proof.
  intros L. unfold remove_client.
  destruct ((0 <=? slot) && (slot <? Z.of_nat MAX_CLIENTS)); [|reflexivity].
  now rewrite L.
Qed.

(** X5.  [remove_client] acts at most once on a slot: on a live slot in
    range it closes the handle once and the number of live sessions drops
    by one; called again, or on a dead slot, or with an index outside the
    table, it does nothing at all. *)
Theorem remove_client_once slot st :
  remove_client slot (state_of (remove_client slot st))
  = (tt, state_of (remove_client slot st), [])
  /\ (~ (0 <= slot < Z.of_nat MAX_CLIENTS) -> remove_client slot st = (tt, st, []))
  /\ (forall c, clients st !! Z.to_nat slot = Some c -> c_alive c = false ->
      remove_client slot st = (tt, st, []))
  /\ (forall c, 0 <= slot < Z.of_nat MAX_CLIENTS ->
      clients st !! Z.to_nat slot = Some c -> c_alive c = true ->
      events_of (remove_client slot st) = [EvClose (c_fd c)]
      /\ S (live_count (clients (state_of (remove_client slot st))))
         = live_count (clients st)).
Proof.
  split; [|split; [|split]].
  - assert (Hnoop : remove_client slot st = (tt, st, []) ->
                    remove_client slot (state_of (remove_client slot st))
                    = (tt, state_of (remove_client slot st), [])).
    { intros E. rewrite E. exact E. }
    destruct (decide (0 <= slot < Z.of_nat MAX_CLIENTS)) as [Hr|Hout];
      [|now apply Hnoop, remove_client_outside].
    destruct (clients st !! Z.to_nat slot) as [c|] eqn:L;
      [|now apply Hnoop, remove_client_missing].
    destruct (c_alive c) eqn:A;
      [|now apply Hnoop, (remove_client_dead slot st c)].
    rewrite (remove_client_live slot st c Hr L A). unfold state_of; cbn [fst snd].
    apply (remove_client_dead _ _ (mk_client (c_fd c) false 0 [])); [|reflexivity].
    cbn [clients set_clients].
    apply list_lookup_insert_eq. now apply lookup_lt_Some in L.
  - apply remove_client_outside.
  - apply remove_client_dead.
  - intros c Hr L A. rewrite (remove_client_live slot st c Hr L A).
    unfold events_of, state_of; cbn [fst snd clients set_clients].
    split; [reflexivity|].
    pose proof (live_count_insert (clients st) (Z.to_nat slot) c
                  (mk_client (c_fd c) false 0 []) L) as H.
    rewrite A in H; cbn [c_alive] in H. lia.
Qed.

(** X6.  When [malloc] fails after a successful registration, the accept
    loop gives the slot back: the only outside effect is that the new
    handle is closed, the live sessions are exactly those from before,
    and the id that was handed out is spent (the counter has moved on). *)
Theorem accept_client_nomem_restores fd st :
  length (clients st) = MAX_CLIENTS ->
  (exists c, c ∈ clients st /\ c_alive c = false) ->
  let r := accept_client_nomem fd st in
  0 <= result_of r
  /\ events_of r = [EvClose fd]
  /\ List.filter c_alive (clients (state_of r)) = List.filter c_alive (clients st)
  /\ clients (state_of r) !! Z.to_nat (result_of r) = Some (mk_client fd false 0 [])
  /\ next_id (state_of r) = wrap64 (next_id st + 1).
Proof.
  intros Hlen (d & Hd & Hdd) r.
  assert (Hev : events_of (add_client fd st) = []).
  { unfold add_client, events_of. destruct (0 <=? find_free_slot st); reflexivity. }
  destruct (add_client_state fd st) as [[E _]|(c0 & Hs & Hl & H0 & Hst)].
  { exfalso. unfold add_client, result_of in E.
    assert (Ef : find_free_slot st = -1)
      by (destruct (0 <=? find_free_slot st); exact E).
    pose proof (find_free_from_none 0 _ ltac:(lia) Ef) as Hall.
    rewrite Forall_forall in Hall. specialize (Hall d Hd). congruence. }
  assert (Hlt : (Z.to_nat (result_of (add_client fd st)) < MAX_CLIENTS)%nat).
  { rewrite <- Hlen. now apply lookup_lt_Some in Hl. }
  unfold r, accept_client_nomem. rewrite bind_run.
  unfold result_of, state_of, events_of in *.
  destruct (add_client fd st) as [[slot st1] ev1]; cbn [fst snd] in *.
  subst ev1 st1.
  destruct (slot <? 0) eqn:T; [lia|].
  rewrite bind_run. unfold remove_client.
  assert (G : (0 <=? slot) && (slot <? Z.of_nat MAX_CLIENTS) = true)
    by (apply andb_true_iff; split; lia).
  rewrite G. cbn [clients set_clients].
  rewrite list_lookup_insert_eq by (now apply lookup_lt_Some in Hl).
  cbn [c_alive c_fd]. unfold_M. cbn [fst snd clients set_clients next_id app].
  split; [exact Hs|]. split; [reflexivity|]. split; [|split; [|reflexivity]].
  - rewrite list_insert_insert_eq.
    now apply (filter_alive_insert_dead _ _ c0).
  - rewrite list_insert_insert_eq.
    apply list_lookup_insert_eq. now apply lookup_lt_Some in Hl.
Qed.

Lemma accept_client_nomem_restores_witness :
  accept_client_nomem 9 two_clients
  = (2, mk_state (<[2%nat := mk_client 9 false 0 []]> (clients two_clients)) 4 3 true,
     [EvClose 9])
  /\ List.filter c_alive (clients (state_of (accept_client_nomem 9 two_clients)))
     = List.filter c_alive (clients two_clients).
Proof.
  destruct (accept_client_nomem_restores 9 two_clients) as (_ & _ & Hf & _).
  - reflexivity.
  - exists zero_client. split; [|reflexivity].
    apply list_elem_of_lookup. exists 5%nat. reflexivity.
  - split; [vm_compute; reflexivity|exact Hf].
Defined.

(** A witness for the four cases of [remove_client]. *)
Lemma remove_client_once_witness :
  events_of (remove_client 1 three_clients) = [EvClose 5]
  /\ S (live_count (clients (state_of (remove_client 1 three_clients))))
     = live_count (clients three_clients).
Proof.
  destruct (remove_client_once 1 three_clients) as (_ & _ & _ & Hlive).
  apply (Hlive (mk_client 5 true 2 (lit "Client-2"))).
  - unfold MAX_CLIENTS; lia.
  - reflexivity.
  - reflexivity.
Defined.

(** ** Lookup after registration, removal and rename *)

(** With unique live ids, the lookup of the id of a live slot returns that
    slot. *)
Lemma find_by_id_in_unique cs i t :
  ids_unique cs -> cs !! i = Some t -> c_alive t = true ->
  find_by_id_in (c_id t) cs = Some t.
Proof.
  intros Hu Hl Ha.
  destruct (find_by_id_in (c_id t) cs) as [t'|] eqn:E.
  - destruct (find_by_id_in_Some _ _ _ E) as (Hin & Ha' & Hid).
    apply list_elem_of_lookup in Hin as [j Hj].
    assert (j = i) by (apply (Hu j i t' t); auto). subst j. congruence.
  - exfalso.
    apply (proj1 (find_by_id_in_None _ _) E t (list_elem_of_lookup_2 _ _ _ Hl) Ha).
    reflexivity.
Qed.

(** X7.  Registration followed by lookup: after a successful
    [add_client], [find_by_id] of the id just handed out returns the new
    record, with the handle registered and the name [Client-<id>], and
    every session that was live before is still found under its id. *)
Theorem add_client_then_find fd st :
  registry_wf st -> ids_unique (clients st) ->
  0 <= fd -> next_id st < INT64_MAX ->
  0 <= result_of (add_client fd st) ->
  let st' := state_of (add_client fd st) in
  find_by_id_in (next_id st) (clients st')
  = Some (mk_client fd true (next_id st) (lit "Client-" ++ fmt_d (next_id st)))
  /\ (forall i t, clients st !! i = Some t -> c_alive t = true ->
      find_by_id_in (c_id t) (clients st') = Some t).
Proof.
  intros Hwf Hu Hfd Hn Hs st'.
  assert (Hu' : ids_unique (clients st')).
  { pose proof (exec_op_unique (OpAdd fd) st Hwf Hu (conj Hfd Hn)) as H.
    now rewrite exec_op_state in H. }
  pose proof (add_client_slot fd st Hs) as Hnew. fold st' in Hnew.
  split.
  - apply (find_by_id_in_unique _ _ _ Hu' Hnew). reflexivity.
  - intros i t Hl Ha.
    destruct (add_client_state fd st) as [[E _]|(c0 & _ & Hl0 & H0 & Hst)]; [lia|].
    apply (find_by_id_in_unique _ i _ Hu'); [|exact Ha].
    unfold st'. rewrite Hst; cbn [clients].
    rewrite list_lookup_insert_ne; [exact Hl|].
    intros <-. congruence.
Qed.

Lemma add_client_then_find_witness :
  find_by_id_in 3 (clients (state_of (add_client 9 two_clients)))
  = Some (mk_client 9 true 3 (lit "Client-3"))
  /\ (forall i t, clients two_clients !! i = Some t -> c_alive t = true ->
      find_by_id_in (c_id t) (clients (state_of (add_client 9 two_clients))) = Some t).
Proof.
  apply (add_client_then_find 9 two_clients).
  - apply two_clients_wf.
  - apply two_clients_invariant.
  - lia.
  - vm_compute; reflexivity.
  - vm_compute; discriminate.
Defined.

(** X8.  Removal followed by lookup: once [remove_client] has freed a live
    slot, [find_by_id] of the id it held finds nothing, and every other
    live session is still found under its id. *)
Theorem remove_client_then_find slot st c :
  ids_unique (clients st) ->
  0 <= slot < Z.of_nat MAX_CLIENTS ->
  clients st !! Z.to_nat slot = Some c -> c_alive c = true ->
  let st' := state_of (remove_client slot st) in
  find_by_id_in (c_id c) (clients st') = None
  /\ (forall i t, i <> Z.to_nat slot -> clients st !! i = Some t -> c_alive t = true ->
      find_by_id_in (c_id t) (clients st') = Some t).
Proof.
  intros Hu Hr Hl Ha st'.
  assert (Hst : clients st' = <[Z.to_nat slot := mk_client (c_fd c) false 0 []]> (clients st)).
  { unfold st'. now rewrite (remove_client_live slot st c Hr Hl Ha). }
  assert (Hu' : ids_unique (clients st')).
  { rewrite Hst. apply ids_unique_insert; [exact Hu|]. intros Hd; discriminate Hd. }
  split.
  - apply find_by_id_in_None. intros x Hx Hax Hid.
    apply list_elem_of_lookup in Hx as [j Hj]. rewrite Hst in Hj.
    apply list_lookup_insert_Some in Hj as [(_ & <- & _)|(Hne & Hj)]; [discriminate Hax|].
    apply Hne. symmetry. apply (Hu j (Z.to_nat slot) x c); auto.
  - intros i t Hne Hi Hat.
    apply (find_by_id_in_unique _ i _ Hu'); [|exact Hat].
    rewrite Hst. now rewrite list_lookup_insert_ne by congruence.
Qed.

Lemma remove_client_then_find_witness :
  find_by_id_in 2 (clients (state_of (remove_client 1 three_clients))) = None
  /\ find_by_id_in 3 (clients (state_of (remove_client 1 three_clients)))
     = Some (mk_client 6 true 3 (lit "Client-3")).
Proof.
  destruct (remove_client_then_find 1 three_clients (mk_client 5 true 2 (lit "Client-2")))
    as [Hgone Hkept].
  - pose proof two_clients_invariant as (_ & U2 & _).
    pose proof (exec_op_unique (OpAdd 6) two_clients two_clients_wf U2
                  ltac:(split; [lia | vm_compute; reflexivity])) as U3.
    exact U3.
  - unfold MAX_CLIENTS; lia.
  - reflexivity.
  - reflexivity.
  - split; [exact Hgone|].
    apply (Hkept 2%nat (mk_client 6 true 3 (lit "Client-3"))); [lia|reflexivity|reflexivity].
Defined.

(** X9.  A rename is visible at once: after [/name <newName>] from the
    thread of a live slot, [find_by_id] of that session's id returns its
    record with the new (cut) name, the handle and id untouched, and the
    thread carries the same name for its later messages. *)
Theorem rename_then_find s chunk newn st c :
  cstr (strip_eol chunk) = lit "/name " ++ newn ->
  newn <> [] ->
  ids_unique (clients st) ->
  clients st !! Z.to_nat (s_slot s) = Some c ->
  c_alive c = true ->
  let nm := firstn (NAME_LEN - 1) newn in
  let r := handle_line s chunk st in
  result_of r = Continue (with_name s nm)
  /\ find_by_id_in (c_id c) (clients (state_of r))
     = Some (mk_client (c_fd c) true (c_id c) nm)
  /\ (forall i t, i <> Z.to_nat (s_slot s) -> clients st !! i = Some t ->
      clients (state_of r) !! i = Some t).
Proof.
  intros H Hne Hu Hl Ha nm r.
  destruct newn as [|a newn]; [congruence|].
  assert (Hrun : r = do_name s (a :: newn) st).
  { unfold r. rewrite (handle_line_command s chunk _ H).
    apply (do_command_name s (a :: newn)). }
  rewrite do_name_run in Hrun. fold nm in Hrun.
  rewrite (alter_as_insert _ _ _ _ Hl), Ha in Hrun.
  rewrite Hrun. unfold result_of, state_of; cbn [fst snd clients set_clients].
  split; [reflexivity|]. split.
  - apply (find_by_id_in_unique _ (Z.to_nat (s_slot s))
             (mk_client (c_fd c) true (c_id c) nm)); [| |reflexivity].
    + apply ids_unique_insert; [exact Hu|].
      intros _ j cj Hj Hlj Haj; cbn [c_id]. intros Hid.
      apply Hj. apply (Hu j (Z.to_nat (s_slot s)) cj c); auto.
    + apply list_lookup_insert_eq. now apply lookup_lt_Some in Hl.
  - intros i t Hi Hli. now rewrite list_lookup_insert_ne by congruence.
Qed.

Lemma rename_then_find_witness :
  result_of (handle_line (session_of 1 three_clients) (lit "/name Bob" ++ [LF]) three_clients)
  = Continue (with_name (session_of 1 three_clients) (lit "Bob"))
  /\ find_by_id_in 2
       (clients (state_of (handle_line (session_of 1 three_clients)
                             (lit "/name Bob" ++ [LF]) three_clients)))
     = Some (mk_client 5 true 2 (lit "Bob")).
Proof.
  destruct (rename_then_find (session_of 1 three_clients) (lit "/name Bob" ++ [LF])
              (lit "Bob") three_clients (mk_client 5 true 2 (lit "Client-2")))
    as (Hres & Hfind & _).
  - reflexivity.
  - discriminate.
  - pose proof two_clients_invariant as (_ & U2 & _).
    exact (exec_op_unique (OpAdd 6) two_clients two_clients_wf U2
             ltac:(split; [lia | vm_compute; reflexivity])).
  - reflexivity.
  - reflexivity.
  - split; [exact Hres|exact Hfind].
Defined.

(** ** Private messages: edge cases *)

(** X10.  In a well-formed table every live id lies in [1, next_id), so a
    [/msg] whose id field parses to anything else (zero, a negative
    number, a numeral saturated at the 64-bit bounds, an id not handed
    out yet) is answered with "User not found." to the sender alone, and
    nothing else happens. *)
Theorem msg_id_out_of_range s chunk p st :
  registry_wf st ->
  cstr (strip_eol chunk) = lit "/msg " ++ p ->
  ~ (1 <= atoll p < next_id st) ->
  handle_line s chunk st = (Continue s, st, [EvSend (s_fd s) not_found_msg]).
Proof.
  intros Hwf H Hout.
  rewrite (handle_line_command s chunk _ H).
  etransitivity; [apply (do_command_msg s p)|].
  rewrite do_msg_run.
  assert (E : find_by_id_in (atoll p) (clients st) = None).
  { apply find_by_id_in_None. intros c Hc Ha Hid.
    pose proof (wf_live_ids st Hwf c Hc Ha). lia. }
  now rewrite E.
Qed.

Lemma msg_id_out_of_range_witness :
  handle_line (session_of 0 two_clients) (lit "/msg -2 hi" ++ [LF]) two_clients
  = (Continue (session_of 0 two_clients), two_clients, [EvSend 4 not_found_msg])
  /\ handle_line (session_of 0 two_clients)
       (lit "/msg 99999999999999999999 hi" ++ [LF]) two_clients
     = (Continue (session_of 0 two_clients), two_clients, [EvSend 4 not_found_msg]).
Proof.
  split.
  - apply (msg_id_out_of_range (session_of 0 two_clients) (lit "/msg -2 hi" ++ [LF])
             (lit "-2 hi") two_clients).
    + apply two_clients_wf.
    + reflexivity.
    + vm_compute. intros [H _]. now apply H.
  - apply (msg_id_out_of_range (session_of 0 two_clients)
             (lit "/msg 99999999999999999999 hi" ++ [LF])
             (lit "99999999999999999999 hi") two_clients).
    + apply two_clients_wf.
    + reflexivity.
    + vm_compute. intros [_ H]. discriminate H.
Defined.

Lemma skip_field_nospace p :
  Forall (fun c => c <> SP) p -> skip_field p = [].
Proof.
  induction 1 as [|c l Hc _ IH]; simpl; [reflexivity|].
  destruct (Ascii.eqb_spec c SP); [contradiction|exact IH].
Qed.



(** *** Ids as they are shown can be typed back *)





(** ** The read loop as a whole *)

Lemma not_slash_match {T} (b : list ascii) (A B : T) :
  head b <> Some "/"%char ->
  match b with
  | "/"%char :: _ => A
  | _ => B
  end = B.
Proof.
  intros Hb. destruct b as [|x b]; [reflexivity|].
  destruct (Ascii.eqb_spec x "/"%char) as [->|Hx]; [now elim Hb|].
  destruct x as [[] [] [] [] [] [] [] []]; try reflexivity. now elim Hx.
Qed.

Lemma handle_line_chat s chunk st :
  strip_eol chunk <> [] ->
  head (cstr (strip_eol chunk)) <> Some "/"%char ->
  handle_line s chunk st
  = (Continue s, st,
     broadcast_events
       (snprintf (BUF_SIZE + 64)
          (chat_msg (my_name s) (my_id s) (cstr (strip_eol chunk))))
       (s_fd s) (clients st)
     ++ (if logf st
         then [EvLog (log_msg (my_name s) (my_id s) (cstr (strip_eol chunk)))]
         else [])).
Proof.
  intros Hne Hhead. unfold handle_line.
  assert (Hn : Nat.eqb (length (strip_eol chunk)) 0 = false).
  { destruct (strip_eol chunk); [congruence|reflexivity]. }
  cbv zeta. rewrite Hn, (not_slash_match _ _ _ Hhead).
  unfold_M. destruct (logf st); cbn; now rewrite ?app_nil_r.
Qed.

(** A line on which the loop stops, whoever sends it and whatever the
    table holds. *)
Lemma handle_line_stops q :
  strip_eol q = [] \/ (exists rest, cstr (strip_eol q) = lit "/quit" ++ rest) ->
  forall s st, handle_line s q st = (Break, st, []).
Proof.
  intros [H|(rest & H)] s st.
  - now apply handle_line_empty.
  - rewrite (handle_line_command s q _ H). reflexivity.
Qed.

Lemma client_loop_stops q :
  (forall s st, handle_line s q st = (Break, st, [])) ->
  forall pre post s st,
    client_loop s (pre ++ q :: post) st = client_loop s pre st.
Proof.
  intros Hq. induction pre as [|c pre IH]; intros post s st.
  - cbn [app]. rewrite (client_loop_break s q post st (Hq s st)). reflexivity.
  - cbn [app client_loop].
    destruct (Nat.eqb (length c) 0); [reflexivity|].
    rewrite !bind_run. destruct (handle_line s c st) as [[r st1] ev1].
    destruct r as [s'|]; [|reflexivity]. now rewrite IH.
Qed.

(** X13.  A line that begins with [/quit], or that is empty once its line
    ends are stripped, is the end of the session exactly as the end of
    the stream is: whatever was received before it, the thread behaves as
    if the input had ended there, and nothing received after it is ever
    interpreted. *)
Theorem input_after_quit_ignored q pre post s st :
  strip_eol q = [] \/ (exists rest, cstr (strip_eol q) = lit "/quit" ++ rest) ->
  client_serve s (pre ++ q :: post) st = client_serve s pre st.
Proof.
  intros Hq. unfold client_serve.
  rewrite !bind_run.
  now rewrite (client_loop_stops q (handle_line_stops q Hq) pre post s st).
Qed.

Lemma input_after_quit_ignored_witness :
  client_serve (session_of 0 two_clients)
    ([lit "hi" ++ [LF]] ++ (lit "/quit" ++ [LF]) :: [lit "/name Eve" ++ [LF]]) two_clients
  = client_serve (session_of 0 two_clients) [lit "hi" ++ [LF]] two_clients.
Proof.
  apply (input_after_quit_ignored (lit "/quit" ++ [LF]) [lit "hi" ++ [LF]]
           [lit "/name Eve" ++ [LF]] (session_of 0 two_clients) two_clients).
  right. exists []. reflexivity.
Defined.

(** ** A session thread and the table *)

Lemma broadcast_events_messages msg except_fd cs :
  Forall is_message (broadcast_events msg except_fd cs).
Proof.
  induction cs as [|c cs IH]; simpl; [constructor|].
  destruct (c_alive c && negb (c_fd c =? except_fd)); [constructor; [exact I|]|]; exact IH.
Qed.

Lemma log_messages (b : bool) line :
  Forall is_message (if b then [EvLog line] else []).
Proof. destruct b; repeat constructor. Qed.

(** One pass through the loop body: it sends and logs but closes nothing;
    the session keeps its slot, handle and id; and the table is either
    untouched or has had the name of the session's own slot rewritten. *)
Lemma handle_line_cases s chunk st :
  exists ctl st' ev,
    handle_line s chunk st = (ctl, st', ev)
    /\ Forall is_message ev
    /\ (ctl = Break
        \/ exists s', ctl = Continue s'
             /\ s_slot s' = s_slot s /\ s_fd s' = s_fd s /\ my_id s' = my_id s)
    /\ (st' = st \/ exists newn, st' = state_of (set_name (s_slot s) newn st)).
Proof.
  destruct (strip_eol chunk) as [|c0 r0] eqn:Estrip.
  { exists Break, st, []. rewrite (handle_line_empty s chunk st Estrip).
    split; [reflexivity|]. split; [constructor|]. split; [now left|now left]. }
  assert (Hne : strip_eol chunk <> []) by (rewrite Estrip; discriminate).
  destruct (cstr (strip_eol chunk)) as [|x b] eqn:E.
  { eexists _, _, _. split; [apply handle_line_chat; [exact Hne|rewrite E; discriminate]|].
    split; [apply Forall_app; split; [apply broadcast_events_messages|apply log_messages]|].
    split; [right; exists s; auto|now left]. }
  destruct (Ascii.eqb_spec x "/"%char) as [->|Hx].
  2:{ eexists _, _, _. split; [apply handle_line_chat; [exact Hne|rewrite E; simpl; congruence]|].
      split; [apply Forall_app; split; [apply broadcast_events_messages|apply log_messages]|].
      split; [right; exists s; auto|now left]. }
  rewrite Estrip in E. rewrite <- Estrip in E.
  rewrite (handle_line_command s chunk b E). unfold do_command.
  destruct (strncmp_eq ("/"%char :: b) (lit "/quit") 5).
  { exists Break, st, []. split; [reflexivity|]. split; [constructor|]. auto. }
  destruct (strncmp_eq ("/"%char :: b) (lit "/name ") 6).
  { destruct (drop 6 ("/"%char :: b)) as [|a newn] eqn:En.
    - exists (Continue s), st, [EvSend (s_fd s) usage_msg].
      split; [reflexivity|]. split; [repeat constructor|].
      split; [right; exists s; auto|now left].
    - eexists _, _, _. split; [apply do_name_run|].
      split; [apply Forall_app; split; [apply broadcast_events_messages|apply log_messages]|].
      split; [right; eexists; split; [reflexivity|auto]|].
      right. exists (a :: newn). reflexivity. }
  destruct (strncmp_eq ("/"%char :: b) (lit "/list") 5).
  { exists (Continue s), st, [EvSend (s_fd s) (list_users_text (clients st))].
    split; [reflexivity|]. split; [repeat constructor|].
    split; [right; exists s; auto|now left]. }
  destruct (strncmp_eq ("/"%char :: b) (lit "/msg ") 5).
  { rewrite do_msg_run.
    destruct (find_by_id_in (atoll (drop 5 ("/"%char :: b))) (clients st)) as [t|].
    - eexists _, _, _. split; [reflexivity|].
      split; [apply Forall_app; split; [repeat constructor|apply log_messages]|].
      split; [right; exists s; auto|now left].
    - eexists _, _, _. split; [reflexivity|]. split; [repeat constructor|].
      split; [right; exists s; auto|now left]. }
  exists (Continue s), st, [EvSend (s_fd s) unknown_msg].
  split; [reflexivity|]. split; [repeat constructor|].
  split; [right; exists s; auto|now left].
Qed.

Lemma renamed_only_refl i st : renamed_only i st st.
Proof.
  repeat split; auto. intros c Hc. exists (c_name c). rewrite Hc. now destruct c.
Qed.

Lemma renamed_only_trans i st0 st1 st2 :
  renamed_only i st0 st1 -> renamed_only i st1 st2 -> renamed_only i st0 st2.
Proof.
  intros (N1 & L1 & G1 & O1 & S1) (N2 & L2 & G2 & O2 & S2).
  repeat split; try congruence.
  - intros j Hj. now rewrite O2, O1.
  - intros c Hc. destruct (S1 c Hc) as (nm1 & H1).
    destruct (S2 _ H1) as (nm2 & H2). exists nm2. exact H2.
Qed.

Lemma set_name_renamed_only slot newn st :
  renamed_only (Z.to_nat slot) st (state_of (set_name slot newn st)).
Proof.
  unfold set_name, state_of; cbn [fst snd].
  repeat split; cbn [clients set_clients next_id listen_fd logf].
  - intros j Hj. now rewrite list_lookup_alter_ne by congruence.
  - intros c Hc. exists (firstn (NAME_LEN - 1) newn).
    now rewrite list_lookup_alter_eq, Hc.
Qed.

(** The loop keeps the table well formed and the invariant true, and all
    it ever changes is the name in the session's own slot. *)
Lemma client_loop_keeps inputs : forall s st c,
  registry_wf st -> ids_unique (clients st) -> slots_reset (clients st) ->
  0 <= s_slot s ->
  clients st !! Z.to_nat (s_slot s) = Some c -> c_alive c = true ->
  exists s' st' ev,
    client_loop s inputs st = (s', st', ev)
    /\ Forall is_message ev
    /\ s_slot s' = s_slot s /\ s_fd s' = s_fd s /\ my_id s' = my_id s
    /\ registry_wf st' /\ ids_unique (clients st') /\ slots_reset (clients st')
    /\ renamed_only (Z.to_nat (s_slot s)) st st'.
Proof.
  induction inputs as [|chunk rest IH]; intros s st c Hwf Hu Hr Hs Hl Ha.
  - exists s, st, []. split; [reflexivity|]. split; [constructor|].
    split_and!; auto using renamed_only_refl.
  - cbn [client_loop]. destruct (Nat.eqb (length chunk) 0).
    { exists s, st, []. split; [reflexivity|]. split; [constructor|].
    split_and!; auto using renamed_only_refl. }
    rewrite bind_run.
    destruct (handle_line_cases s chunk st) as (ctl & st1 & ev1 & Hrun & Hev & Hctl & Hst).
    rewrite Hrun.
    assert (Hpre : forall newn, op_pre (OpRename (s_slot s) newn) st)
      by (intros newn; split; [exact Hs|now exists c]).
    assert (K : registry_wf st1 /\ ids_unique (clients st1) /\ slots_reset (clients st1)
                /\ renamed_only (Z.to_nat (s_slot s)) st st1).
    { destruct Hst as [->|(newn & ->)]; [auto using renamed_only_refl|].
      rewrite <- (exec_op_state (OpRename (s_slot s) newn) st).
      split; [now apply exec_op_wf|]. split; [now apply exec_op_unique|].
      split; [now apply exec_op_reset|].
      rewrite exec_op_state. apply set_name_renamed_only. }
    destruct K as (Hwf1 & Hu1 & Hr1 & Hren1).
    destruct Hctl as [->|(s1 & -> & Hs1 & Hf1 & Hi1)].
    + exists s, st1, ev1. split; [unfold_M; now rewrite app_nil_r|]. split_and!; auto.
    + destruct Hren1 as (N1 & L1 & G1 & O1 & S1).
      destruct (S1 c Hl) as (nm1 & Hl1). rewrite <- Hs1 in Hl1.
      destruct (IH s1 st1 _ Hwf1 Hu1 Hr1 ltac:(lia) Hl1 Ha)
        as (s2 & st2 & ev2 & Hrun2 & Hev2 & Hs2 & Hf2 & Hi2 & Hwf2 & Hu2 & Hr2 & Hren2).
      rewrite Hrun2. exists s2, st2, (ev1 ++ ev2).
      split; [reflexivity|]. split; [apply Forall_app; auto|].
      split; [congruence|]. split; [congruence|]. split; [congruence|].
      split; [exact Hwf2|]. split; [exact Hu2|]. split; [exact Hr2|].
      rewrite Hs1 in Hren2.
      apply (renamed_only_trans _ st st1 st2); [|exact Hren2].
      unfold renamed_only; split_and!; auto.
Qed.


Lemma client_thread_run slot inputs st :
  client_thread slot inputs st
  = (let s := session_of slot st in
     let '(u, st', ev) := client_serve s inputs st in
     (u, st',
      (EvSend (s_fd s) (snprintf BUF_SIZE (welcome_msg (my_name s) (my_id s)))
       :: broadcast_events (snprintf BUF_SIZE (joined_msg (my_name s) (my_id s)))
            (s_fd s) (clients st)
       ++ (if logf st then [EvLog (log_connect (my_name s) (my_id s))] else []))
      ++ ev)).
Proof.
  unfold client_thread. rewrite !bind_run. unfold_M. cbv zeta.
  destruct (logf st);
    destruct (client_serve (session_of slot st) inputs st) as [[u st'] ev];
    cbn [app]; now rewrite <- ?app_assoc, ?app_nil_r.
Qed.

(** The outcome of a whole thread, in terms of the table [st1] the loop
    leaves behind. *)
Lemma client_thread_final slot inputs st c :
  registry_wf st -> ids_unique (clients st) -> slots_reset (clients st) ->
  0 <= slot < Z.of_nat MAX_CLIENTS ->
  clients st !! Z.to_nat slot = Some c -> c_alive c = true ->
  exists st1 nm1 ev,
    client_thread slot inputs st
    = (tt,
       set_clients (<[Z.to_nat slot := mk_client (c_fd c) false 0 []]> (clients st1)) st1,
       ev ++ [EvClose (c_fd c)])
    /\ Forall is_message ev
    /\ registry_wf st1 /\ ids_unique (clients st1) /\ slots_reset (clients st1)
    /\ renamed_only (Z.to_nat slot) st st1
    /\ clients st1 !! Z.to_nat slot = Some (mk_client (c_fd c) true (c_id c) nm1).
Proof.
  intros Hwf Hu Hr Hslot Hl Ha.
  set (s := session_of slot st).
  assert (Hss : s_slot s = slot) by reflexivity.
  destruct (client_loop_keeps inputs s st c Hwf Hu Hr ltac:(lia) Hl Ha)
    as (s1 & st1 & ev1 & Hrun1 & Hev1 & Hs1 & Hf1 & Hi1 & Hwf1 & Hu1 & Hr1 & Hren).
  rewrite Hss in Hren. pose proof Hren as (N1 & L1 & G1 & O1 & S1).
  destruct (S1 c Hl) as (nm1 & Hl1). rewrite Ha in Hl1.
  assert (Hl1' : clients st1 !! Z.to_nat (s_slot s1)
                 = Some (mk_client (c_fd c) true (c_id c) nm1)) by (now rewrite Hs1, Hss).
  pose proof (client_disconnect_run s1 st1 _ ltac:(lia) Hl1' eq_refl) as Hdis.
  cbn [c_fd] in Hdis. rewrite Hs1, Hss in Hdis.
  eexists st1, nm1, _. split; [|split; [|split_and!; eauto]].
  - rewrite client_thread_run. fold s. cbv zeta.
    unfold client_serve. rewrite bind_run, Hrun1, Hdis.
    rewrite !app_assoc. reflexivity.
  - rewrite <- !app_assoc.
    apply Forall_app; split; [|apply Forall_app; split; [exact Hev1|]].
    + constructor; [exact I|].
      apply Forall_app; split; [apply broadcast_events_messages|apply log_messages].
    + apply Forall_app; split; [apply broadcast_events_messages|apply log_messages].
Qed.

(** X14.  Whatever a session's thread receives, it ends by giving its slot
    back.  Started on a live slot of a well-formed table on which the
    invariant holds, [client_thread] closes the session's handle exactly
    once, as its last act, and closes nothing else; the slot is left
    dead, with id 0 and an empty name; no other slot is touched; the id
    counter is not moved; and the table is again well formed with the
    invariant true. *)
Theorem client_thread_frees_slot slot inputs st c :
  registry_wf st -> state_invariant st ->
  0 <= slot < Z.of_nat MAX_CLIENTS ->
  clients st !! Z.to_nat slot = Some c -> c_alive c = true ->
  let r := client_thread slot inputs st in
  registry_wf (state_of r)
  /\ state_invariant (state_of r)
  /\ clients (state_of r) !! Z.to_nat slot = Some (mk_client (c_fd c) false 0 [])
  /\ (forall j, j <> Z.to_nat slot -> clients (state_of r) !! j = clients st !! j)
  /\ next_id (state_of r) = next_id st
  /\ (exists ev, events_of r = ev ++ [EvClose (c_fd c)] /\ Forall is_message ev).
Proof.
  intros Hwf (_ & Hu & Hr) Hslot Hl Ha r.
  destruct (client_thread_final slot inputs st c Hwf Hu Hr Hslot Hl Ha)
    as (st1 & nm1 & ev & Hfinal & Hev & Hwf1 & Hu1 & Hr1 & (N1 & L1 & G1 & O1 & S1) & Hl1).
  assert (Hrem : state_of (exec_op (OpRemove slot) st1)
                 = set_clients (<[Z.to_nat slot := mk_client (c_fd c) false 0 []]>
                                  (clients st1)) st1).
  { rewrite exec_op_state, (remove_client_live slot st1 _ Hslot Hl1 eq_refl). reflexivity. }
  unfold r. rewrite Hfinal. unfold state_of, events_of; cbn [fst snd].
  rewrite <- Hrem.
  split; [now apply exec_op_wf|]. split; [|split; [|split; [|split]]].
  - split; [apply registry_wf_live_bound; now apply exec_op_wf|].
    split; [now apply exec_op_unique|]. apply exec_op_reset; [discriminate|exact Hr1|exact I].
  - rewrite Hrem; cbn [clients set_clients].
    apply list_lookup_insert_eq. now apply lookup_lt_Some in Hl1.
  - intros j Hj. rewrite Hrem; cbn [clients set_clients].
    rewrite list_lookup_insert_ne by congruence. now apply O1.
  - rewrite Hrem; cbn [next_id set_clients]. exact N1.
  - now exists ev.
Qed.

Lemma client_thread_frees_slot_witness :
  clients (state_of (client_thread 1
                       [lit "hello" ++ [LF]; lit "/name Bob" ++ [LF]; lit "/list" ++ [LF]]
                       two_clients)) !! 1%nat
  = Some (mk_client 5 false 0 [])
  /\ state_invariant (state_of (client_thread 1
                       [lit "hello" ++ [LF]; lit "/name Bob" ++ [LF]; lit "/list" ++ [LF]]
                       two_clients)).
Proof.
  destruct (client_thread_frees_slot 1
              [lit "hello" ++ [LF]; lit "/name Bob" ++ [LF]; lit "/list" ++ [LF]]
              two_clients (mk_client 5 true 2 (lit "Client-2")))
    as (_ & Hinv & Hslot & _).
  - apply two_clients_wf.
  - apply two_clients_invariant.
  - unfold MAX_CLIENTS; lia.
  - reflexivity.
  - reflexivity.
  - split; [exact Hslot|exact Hinv].
Defined.

(** ** After shutdown *)

Lemma find_by_id_in_dead tid cs :
  Forall (fun c => c_alive c = false) cs -> find_by_id_in tid cs = None.
Proof. induction 1 as [|c cs Hc _ IH]; simpl; [reflexivity|]. now rewrite Hc. Qed.

Lemma broadcast_events_dead msg except_fd cs :
  Forall (fun c => c_alive c = false) cs -> broadcast_events msg except_fd cs = [].
Proof. induction 1 as [|c cs Hc _ IH]; simpl; [reflexivity|]. now rewrite Hc. Qed.

Lemma list_users_loop_dead cs out pos :
  Forall (fun c => c_alive c = false) cs -> list_users_loop cs out pos = (out, pos).
Proof.
  induction 1 as [|c cs Hc _ IH]; cbn [list_users_loop]; [reflexivity|].
  rewrite Hc, IH. now destruct (Nat.ltb (pos + 64) BUF_SIZE).
Qed.

(** X15.  Once [shutdown_server] has run, no session can be reached any
    more: every lookup by id fails, a broadcast sends nothing, and a
    listing consists of the header and the footer alone. *)
Theorem shutdown_silences st :
  let cs' := clients (state_of (shutdown_server st)) in
  (forall tid, find_by_id_in tid cs' = None)
  /\ (forall msg except_fd, broadcast_events msg except_fd cs' = [])
  /\ list_users_text cs' = list_header ++ list_footer.
Proof.
  intros cs'.
  assert (Hd : Forall (fun c => c_alive c = false) cs').
  { unfold cs'. rewrite shutdown_server_run. unfold state_of; cbn [fst snd clients set_clients].
    apply shutdown_clients_dead. }
  split; [intros tid; now apply find_by_id_in_dead|].
  split; [intros msg e; now apply broadcast_events_dead|].
  rewrite list_users_text_start, (list_users_loop_dead _ _ _ Hd).
  rewrite snprintf_at_fits; [reflexivity|].
  rewrite length_list_header, length_list_footer. unfold BUF_SIZE; lia.
Qed.

(** ** [send_all] *)

Lemma send_all_outcome answers buf : forall sent r pieces,
  send_all answers buf sent = Some (r, pieces) ->
  (r = 0 /\ concat pieces = skipn sent buf)
  \/ (r = -1 /\ exists rest, rest <> [] /\ skipn sent buf = concat pieces ++ rest).
Proof.
  induction answers as [|[n eintr] answers IH]; intros sent r pieces H;
    cbn [send_all] in H; destruct (Nat.ltb sent (length buf)) eqn:G.
  - discriminate H.
  - injection H as <- <-. left. split; [reflexivity|].
    apply Nat.ltb_ge in G. cbn [concat]. symmetry. now apply drop_ge.
  - apply Nat.ltb_lt in G. destruct (n <=? 0).
    + destruct ((n <? 0) && eintr); [now apply IH|].
      injection H as <- <-. right. split; [reflexivity|].
      exists (skipn sent buf). split; [|reflexivity].
      intros E. apply (f_equal (@length ascii)) in E.
      rewrite length_skipn in E. simpl in E. lia.
    + destruct (send_all answers buf (sent + Z.to_nat n)) as [[r' p']|] eqn:E;
        [|discriminate H].
      injection H as <- <-. cbn [concat].
      assert (Hsplit : skipn sent buf
                       = firstn (Z.to_nat n) (skipn sent buf)
                         ++ skipn (sent + Z.to_nat n) buf).
      { rewrite <- (drop_drop buf (Z.to_nat n) sent). symmetry. apply take_drop. }
      destruct (IH _ _ _ E) as [[-> Hc]|[-> (rest & Hne & Hc)]].
      * left. split; [reflexivity|]. rewrite Hc. symmetry. exact Hsplit.
      * right. split; [reflexivity|]. exists rest. split; [exact Hne|].
        rewrite <- app_assoc, <- Hc. exact Hsplit.
  - injection H as <- <-. left. split; [reflexivity|].
    apply Nat.ltb_ge in G. cbn [concat]. symmetry. now apply drop_ge.
Qed.

Lemma send_all_progress answers buf : forall sent,
  Forall (fun a => 0 < a.1) answers ->
  (length buf <= sent + length answers)%nat ->
  exists pieces, send_all answers buf sent = Some (0, pieces).
Proof.
  induction answers as [|[n eintr] answers IH]; intros sent Hpos Hlen;
    cbn [send_all]; destruct (Nat.ltb sent (length buf)) eqn:G;
    try (now exists []).
  - apply Nat.ltb_lt in G. simpl in Hlen. lia.
  - inversion Hpos as [|? ? Hn Hrest]; subst. cbn [fst] in Hn.
    destruct (n <=? 0) eqn:T; [lia|].
    destruct (IH (sent + Z.to_nat n)%nat Hrest) as (p & ->); [simpl in Hlen; lia|].
    eexists; reflexivity.
Qed.

(** X16.  [send_all] returns 0 only when the buffer has been handed to
    [send] completely and in order, and -1 only with a part of the buffer
    still unsent, the pieces taken so far being a prefix of it; a [send]
    interrupted by a signal ([EINTR]) is simply tried again; an empty
    buffer needs no call; and answers that each take at least one byte
    always end in success. *)
Theorem send_all_spec answers buf :
  (forall r pieces, send_all answers buf 0 = Some (r, pieces) ->
     (r = 0 /\ concat pieces = buf)
     \/ (r = -1 /\ exists rest, rest <> [] /\ buf = concat pieces ++ rest))
  /\ (forall n, n < 0 -> buf <> [] ->
      send_all ((n, true) :: answers) buf 0 = send_all answers buf 0)
  /\ send_all answers [] 0 = Some (0, [])
  /\ (Forall (fun a => 0 < a.1) answers -> (length buf <= length answers)%nat ->
      exists pieces, send_all answers buf 0 = Some (0, pieces) /\ concat pieces = buf).
Proof.
  split; [|split; [|split]].
  - intros r pieces H. apply (send_all_outcome answers buf 0 r pieces H).
  - intros n Hn Hb. cbn [send_all].
    destruct buf as [|b buf]; [congruence|]. cbn [length Nat.ltb Nat.leb].
    destruct (n <=? 0) eqn:T; [|lia]. destruct (n <? 0) eqn:T'; [reflexivity|lia].
  - destruct answers as [|[n e] answers]; reflexivity.
  - intros Hpos Hlen.
    destruct (send_all_progress answers buf 0%nat Hpos ltac:(lia)) as (p & Hp).
    exists p. split; [exact Hp|].
    destruct (send_all_outcome _ _ _ _ _ Hp) as [[_ Hc]|[E _]]; [exact Hc|discriminate E].
Qed.

(** Two interruptions and two partial sends. *)
Lemma send_all_spec_witness :
  send_all [(-1, true); (3, false); (-1, true); (8, false)] (lit "hello") 0
  = Some (0, [lit "hel"; lit "lo"])
  /\ send_all [(2, false); (0, false)] (lit "hello") 0 = Some (-1, [lit "he"])
  /\ (0 = 0 /\ concat [lit "hel"; lit "lo"] = lit "hello"
      \/ 0 = -1 /\ exists rest, rest <> [] /\ lit "hello" = concat [lit "hel"; lit "lo"] ++ rest).
Proof.
  split; [reflexivity|]. split; [reflexivity|].
  destruct (send_all_spec [(-1, true); (3, false); (-1, true); (8, false)] (lit "hello"))
    as (Hout & _).
  apply Hout. reflexivity.
Defined.

(** ** The client's input loop and [/quit] *)

Lemma cstr_cons_inv line c r :
  cstr line = c :: r ->
  exists tail, line = c :: tail /\ Ascii.eqb c NUL = false /\ cstr tail = r.
Proof.
  destruct line as [|x tail]; [discriminate|]. simpl.
  destruct (Ascii.eqb x NUL) eqn:E; [discriminate|].
  intros [= -> <-]. now exists tail.
Qed.

(** A prefix of the C string that holds no line end survives the
    stripping. *)
Lemma cstr_strip_prefix p : forall line rest,
  cstr line = p ++ rest ->
  Forall (fun c => is_eol c = false) p ->
  exists rest', cstr (strip_eol line) = p ++ rest'.
Proof.
  induction p as [|c p IH]; intros line rest H Hp.
  - now exists (cstr (strip_eol line)).
  - inversion Hp as [|? ? Hc Hp']; subst.
    destruct (cstr_cons_inv line c (p ++ rest) H) as (tail & -> & Hnul & Ht).
    destruct (IH tail rest Ht Hp') as (rest' & Hr).
    exists rest'. rewrite (strip_eol_cons_keep c tail Hc).
    cbn [cstr app]. now rewrite Hnul, Hr.
Qed.

Lemma strncmp_quit_prefix a :
  strncmp_eq a (lit "/quit") 5 = true -> exists rest, a = lit "/quit" ++ rest.
Proof.
  intros H.
  do 5 (destruct a as [|? a]; [discriminate H|];
        cbn [strncmp_eq lit list_ascii_of_string] in H;
        apply andb_true_iff in H as [?%Ascii.eqb_eq H]; subst).
  now exists a.
Qed.

Lemma client_input_loop_stops l n :
  strncmp_eq (cstr l) (lit "/quit") 5 = true ->
  forall pre post,
    client_input_loop (pre ++ (l, n) :: post) = client_input_loop (pre ++ [(l, n)]).
Proof.
  intros Hq. induction pre as [|[x m] pre IH]; intros post.
  - cbn [app client_input_loop]. rewrite Hq.
    destruct (cstr l) as [|x r]; [discriminate Hq|reflexivity].
  - cbn [app client_input_loop]. rewrite IH. reflexivity.
Qed.

(** X17.  The client and the server agree on what ends a session: a line
    on which the client's input loop stops after sending it (it begins
    with [/quit]) is a line on which the server's loop stops when it
    receives it; and the client sends nothing that was typed after such a
    line. *)
Theorem client_quit_agrees l :
  strncmp_eq (cstr l) (lit "/quit") 5 = true ->
  (forall pre post n,
     client_input_loop (pre ++ (l, n) :: post) = client_input_loop (pre ++ [(l, n)]))
  /\ (forall s st, handle_line s l st = (Break, st, []))
  /\ (forall s st more, client_serve s (l :: more) st = client_disconnect s st).
Proof.
  intros Hq.
  assert (Hb : forall s st, handle_line s l st = (Break, st, [])).
  { destruct (strncmp_quit_prefix _ Hq) as (rest & E).
    destruct (cstr_strip_prefix (lit "/quit") l rest E) as (rest' & E').
    { repeat constructor. }
    apply handle_line_stops. right. now exists rest'. }
  split; [intros pre post n; now apply client_input_loop_stops|].
  split; [exact Hb|].
  intros s st more. apply client_serve_break, Hb.
Qed.

Lemma client_quit_agrees_witness :
  client_input_loop
    ([(lit "hi" ++ [LF], 3)] ++ (lit "/quit now" ++ [LF], 10) :: [(lit "more" ++ [LF], 5)])
  = [lit "hi" ++ [LF]; lit "/quit now" ++ [LF]]
  /\ handle_line (session_of 0 two_clients) (lit "/quit now" ++ [LF]) two_clients
     = (Break, two_clients, []).
Proof.
  destruct (client_quit_agrees (lit "/quit now" ++ [LF])) as (Hc & Hs & _).
  - reflexivity.
  - split; [|apply Hs]. rewrite Hc. reflexivity.
Defined.

(** ** Listings that are always complete *)

Lemma length_fmt_u_small fuel : forall (k : nat) n acc,
  (1 <= k)%nat -> 0 <= n < 10 ^ Z.of_nat k ->
  (length (fmt_u fuel n acc) <= k + length acc)%nat.
Proof.
  induction fuel as [|fuel IH]; intros k n acc Hk Hn; cbn [fmt_u]; [lia|].
  destruct (n / 10 =? 0) eqn:E; [simpl; lia|].
  destruct k as [|k]; [lia|]. destruct k as [|k].
  - change (10 ^ Z.of_nat 1) with 10 in Hn.
    assert (n / 10 = 0) by (apply Z.div_small; lia). lia.
  - rewrite (Nat2Z.inj_succ (S k)), Z.pow_succ_r in Hn by lia.
    assert (Hq : 0 <= n / 10 < 10 ^ Z.of_nat (S k)).
    { split; [apply Z.div_pos; lia|apply Z.div_lt_upper_bound; lia]. }
    specialize (IH (S k) (n / 10) (digit_char (n mod 10) :: acc) ltac:(lia) Hq).
    simpl in IH |- *. lia.
Qed.

Lemma length_live_lines_le L cs :
  (forall c, c ∈ cs -> c_alive c = true -> (length (user_line c) <= L)%nat) ->
  (length (live_lines cs) <= L * length cs)%nat.
Proof.
  induction cs as [|c cs IH]; intros H; [simpl; lia|].
  rewrite live_lines_cons. cbn [length].
  assert (IH' : (length (live_lines cs) <= L * length cs)%nat)
    by (apply IH; intros x Hx; apply H; now right).
  destruct (c_alive c) eqn:A.
  - rewrite length_app. pose proof (H c ltac:(left) A). lia.
  - lia.
Qed.

(** X18.  In the table of [MAX_CLIENTS] slots, while every live session
    has an id below 10^9 and a name of at most 16 bytes (the default
    names [Client-<id>] are such names), the output buffer cannot run
    short: [/list] always shows every live session, between header and
    footer. *)
Theorem list_users_short_names fd st :
  length (clients st) = MAX_CLIENTS ->
  (forall c, c ∈ clients st -> c_alive c = true ->
     0 <= c_id c < 1000000000 /\ (length (c_name c) <= 16)%nat) ->
  list_users fd st = (tt, st, [EvSend fd (full_listing (clients st))]).
Proof.
  intros Hlen Hshort.
  assert (Hlines : (length (live_lines (clients st)) <= 31 * length (clients st))%nat).
  { apply length_live_lines_le. intros c Hc Ha.
    destruct (Hshort c Hc Ha) as [Hid Hnm].
    rewrite length_user_line.
    assert (length (fmt_d (c_id c)) <= 9)%nat.
    { unfold fmt_d. destruct (c_id c <? 0) eqn:E; [lia|].
      pose proof (length_fmt_u_small 19 9 (c_id c) [] ltac:(lia)) as H.
      change (10 ^ Z.of_nat 9) with 1000000000 in H.
      specialize (H Hid). change (length (@nil ascii)) with 0%nat in H. lia. }
    lia. }
  rewrite Hlen in Hlines. unfold MAX_CLIENTS in Hlines.
  assert (Hfit : (length list_header + length (live_lines (clients st)) + 64 < BUF_SIZE)%nat).
  { rewrite length_list_header. unfold BUF_SIZE. lia. }
  unfold list_users. rewrite list_users_text_start.
  rewrite list_users_loop_fits by exact Hfit.
  rewrite snprintf_at_fits.
  - cbn [fst]. unfold full_listing. now rewrite <- app_assoc.
  - rewrite length_app, length_list_footer. lia.
Qed.

Lemma list_users_short_names_witness :
  list_users 4 full_house = (tt, full_house, [EvSend 4 (full_listing (clients full_house))]).
Proof.
  apply (list_users_short_names 4 full_house).
  - apply full_house_full.
  - intros c Hc _. apply list_elem_of_In in Hc.
    assert (H : forallb (fun c => (0 <=? c_id c) && (c_id c <? 1000000000)
                                  && Nat.leb (length (c_name c)) 16)
                        (clients full_house) = true) by (vm_compute; reflexivity).
    rewrite List.forallb_forall in H. specialize (H c Hc).
    apply andb_true_iff in H as [H H3]. apply andb_true_iff in H as [H1 H2].
    apply Nat.leb_le in H3. lia.
Defined.

(** ** Bytes after a NUL *)

Lemma strip_eol_app_keep a c b :
  is_eol c = false -> strip_eol (a ++ c :: b) = a ++ c :: strip_eol b.
Proof.
  intros Hc. induction a as [|x a IH]; cbn [app].
  - now apply strip_eol_cons_keep.
  - rewrite strip_eol_cons, IH. now destruct a.
Qed.

Lemma cstr_app_nul a b :
  Forall (fun c => Ascii.eqb c NUL = false) a -> cstr (a ++ NUL :: b) = a.
Proof.
  induction 1 as [|x a Hx _ IH]; cbn [app cstr]; [reflexivity|].
  now rewrite Hx, IH.
Qed.

Lemma cstr_no_nul a :
  Forall (fun c => Ascii.eqb c NUL = false) a -> cstr a = a.
Proof.
  induction 1 as [|x a Hx _ IH]; cbn [cstr]; [reflexivity|].
  now rewrite Hx, IH.
Qed.

(** The loop body looks at a chunk only through its C string. *)
Lemma handle_line_ext s c1 c2 st :
  strip_eol c1 <> [] -> strip_eol c2 <> [] ->
  cstr (strip_eol c1) = cstr (strip_eol c2) ->
  handle_line s c1 st = handle_line s c2 st.
Proof.
  intros H1 H2 E. unfold handle_line. cbv zeta.
  destruct (strip_eol c1) as [|x1 r1]; [congruence|].
  destruct (strip_eol c2) as [|x2 r2]; [congruence|].
  cbn [length Nat.eqb]. now rewrite E.
Qed.

(** X19.  A received chunk is interpreted up to its first NUL byte: when a
    line without NUL bytes and without a trailing line end is followed,
    in the same chunk, by a NUL byte and anything else, the thread acts
    exactly as on the line alone. *)
Theorem bytes_after_nul_ignored s a b st :
  a <> [] ->
  Forall (fun c => Ascii.eqb c NUL = false) a ->
  strip_eol a = a ->
  handle_line s (a ++ NUL :: b) st = handle_line s a st.
Proof.
  intros Hne Hnul Hstrip.
  assert (E : strip_eol (a ++ NUL :: b) = a ++ NUL :: strip_eol b)
    by (now apply strip_eol_app_keep).
  apply handle_line_ext.
  - rewrite E. destruct a; discriminate.
  - now rewrite Hstrip.
  - rewrite E, Hstrip, (cstr_app_nul a _ Hnul). symmetry. now apply cstr_no_nul.
Qed.

Lemma bytes_after_nul_ignored_witness :
  handle_line (session_of 0 two_clients)
    (lit "/list" ++ NUL :: lit "/quit" ++ [LF]) two_clients
  = handle_line (session_of 0 two_clients) (lit "/list") two_clients.
Proof.
  apply (bytes_after_nul_ignored (session_of 0 two_clients) (lit "/list")
           (lit "/quit" ++ [LF]) two_clients).
  - discriminate.
  - repeat constructor.
  - reflexivity.
Defined.

(** ** A session from accept to disconnect *)

Lemma accept_client_ok fd st :
  0 <= result_of (add_client fd st) ->
  accept_client fd st = (result_of (add_client fd st), state_of (add_client fd st), []).
Proof.
  intros Hs. unfold accept_client. rewrite bind_run.
  assert (Hev : events_of (add_client fd st) = []).
  { unfold add_client, events_of. destruct (0 <=? find_free_slot st); reflexivity. }
  unfold result_of, state_of, events_of in *.
  destruct (add_client fd st) as [[slot st1] ev]; cbn [fst snd] in *. subst ev.
  destruct (slot <? 0) eqn:T; [lia|]. reflexivity.
Qed.

(** X20.  A session that is accepted, served and gone leaves the registry
    as it found it, up to the id it used: after [accept_client] takes a
    free slot and [client_thread] has run on it over any input, the live
    sessions are exactly those from before, the id counter is one
    higher, and the table is well formed with the invariant true. *)
Theorem session_lifecycle fd inputs st :
  registry_wf st -> state_invariant st ->
  0 <= fd -> next_id st < INT64_MAX ->
  (exists c, c ∈ clients st /\ c_alive c = false) ->
  let r1 := accept_client fd st in
  let r2 := client_thread (result_of r1) inputs (state_of r1) in
  0 <= result_of r1
  /\ List.filter c_alive (clients (state_of r2)) = List.filter c_alive (clients st)
  /\ next_id (state_of r2) = next_id st + 1
  /\ registry_wf (state_of r2)
  /\ state_invariant (state_of r2).
Proof.
  intros Hwf (Hb & Hu & Hr) Hfd Hn (d & Hd & Hdd) r1 r2.
  assert (Hpre : op_pre (OpAdd fd) st) by (split; assumption).
  destruct (add_client_state fd st) as [[E _]|(c0 & Hs & Hl0 & H0 & Hst)].
  { exfalso. unfold add_client, result_of in E.
    assert (Ef : find_free_slot st = -1)
      by (destruct (0 <=? find_free_slot st); exact E).
    pose proof (find_free_from_none 0 _ ltac:(lia) Ef) as Hall.
    rewrite Forall_forall in Hall. specialize (Hall d Hd). congruence. }
  set (slot := result_of (add_client fd st)) in *.
  set (st1 := state_of (add_client fd st)) in *.
  assert (Hr1 : r1 = (slot, st1, [])) by (apply accept_client_ok; exact Hs).
  assert (Hwf1 : registry_wf st1).
  { unfold st1. rewrite <- (exec_op_state (OpAdd fd) st). now apply exec_op_wf. }
  assert (Hu1 : ids_unique (clients st1)).
  { unfold st1. rewrite <- (exec_op_state (OpAdd fd) st). now apply exec_op_unique. }
  assert (Hre1 : slots_reset (clients st1)).
  { unfold st1. rewrite <- (exec_op_state (OpAdd fd) st).
    apply exec_op_reset; [discriminate|exact Hr|exact Hpre]. }
  assert (Hnew : clients st1 !! Z.to_nat slot
                 = Some (mk_client fd true (next_id st) (lit "Client-" ++ fmt_d (next_id st))))
    by (apply add_client_slot; exact Hs).
  assert (Hrange : 0 <= slot < Z.of_nat MAX_CLIENTS).
  { split; [exact Hs|]. apply lookup_lt_Some in Hl0.
    rewrite (wf_length st Hwf) in Hl0. lia. }
  destruct (client_thread_final slot inputs st1 _ Hwf1 Hu1 Hre1 Hrange Hnew eq_refl)
    as (st2 & nm & ev & Hfinal & _ & Hwf2 & Hu2 & Hre2 & (N2 & L2 & G2 & O2 & S2) & Hl2).
  cbn [c_fd c_id] in Hfinal, Hl2.
  assert (Hrem : state_of (exec_op (OpRemove slot) st2)
                 = set_clients (<[Z.to_nat slot := mk_client fd false 0 []]> (clients st2)) st2).
  { rewrite exec_op_state, (remove_client_live slot st2 _ Hrange Hl2 eq_refl). reflexivity. }
  assert (Hcs : <[Z.to_nat slot := mk_client fd false 0 []]> (clients st2)
                = <[Z.to_nat slot := mk_client fd false 0 []]> (clients st)).
  { apply list_eq. intros j. destruct (decide (j = Z.to_nat slot)) as [->|Hj].
    - rewrite !list_lookup_insert_eq; [reflexivity| |];
        [now apply lookup_lt_Some in Hl0|now apply lookup_lt_Some in Hl2].
    - rewrite !list_lookup_insert_ne by congruence.
      rewrite (O2 j Hj), Hst; cbn [clients].
      now rewrite list_lookup_insert_ne by congruence. }
  assert (Hres : result_of r1 = slot) by (now rewrite Hr1).
  assert (Hst2 : state_of r2 = state_of (exec_op (OpRemove slot) st2)).
  { unfold r2. rewrite Hr1. unfold result_of, state_of at 2; cbn [fst snd].
    rewrite Hfinal, Hrem. reflexivity. }
  rewrite Hres, Hst2.
  split; [exact Hs|]. split; [|split; [|split]].
  - rewrite Hrem. cbn [clients set_clients]. rewrite Hcs.
    now apply (filter_alive_insert_dead _ _ c0).
  - rewrite Hrem. cbn [next_id set_clients]. rewrite N2, Hst; cbn [next_id].
    apply wrap64_succ; [apply (wf_next st Hwf)|exact Hn].
  - now apply exec_op_wf.
  - split; [apply registry_wf_live_bound; now apply exec_op_wf|].
    split; [now apply exec_op_unique|].
    apply exec_op_reset; [discriminate|exact Hre2|exact I].
Qed.

Lemma session_lifecycle_witness :
  List.filter c_alive
    (clients (state_of (client_thread (result_of (accept_client 9 two_clients))
                          [lit "/name Zed" ++ [LF]; lit "bye" ++ [LF]]
                          (state_of (accept_client 9 two_clients)))))
  = List.filter c_alive (clients two_clients)
  /\ next_id (state_of (client_thread (result_of (accept_client 9 two_clients))
                          [lit "/name Zed" ++ [LF]; lit "bye" ++ [LF]]
                          (state_of (accept_client 9 two_clients))))
     = 4.
Proof.
  destruct (session_lifecycle 9 [lit "/name Zed" ++ [LF]; lit "bye" ++ [LF]] two_clients)
    as (_ & Hf & Hn & _).
  - apply two_clients_wf.
  - apply two_clients_invariant.
  - lia.
  - vm_compute; reflexivity.
  - exists zero_client. split; [|reflexivity].
    apply list_elem_of_lookup. exists 5%nat. reflexivity.
  - split; [exact Hf|exact Hn].
Defined.
